(** * PokeCard-TCG-detector: the matching service and the catalog builder

    A shallow embedding of [api.py], [compute_hash.py] and
    [update_hashes_from_tcgdex.py].

    - Python exceptions are values of [exn]; fallible code returns [result].
    - The process-wide [card_hashes] data frame and the pickle file on disk
      are threaded explicitly through a small state-and-error monad.
    - [imagehash], [PIL] and [base64] are outside the repository: they are the
      fields of the class [ImageHashLib], with the shape of each hash as the
      library documents it; so are [repr] and [str.capitalize], which work on
      code points.
    - [pandas] is outside the repository too: a data frame is a list of rows
      plus the optional [distance] column, and [nsmallest] is a stable
      ascending sort followed by [head n].
    - Python floats are IEEE binary64: Rocq's primitive floats. *)

From Stdlib Require Import Floats.PrimFloat Floats.FloatOps Floats.SpecFloat.
From Stdlib Require Import Numbers.Cyclic.Int63.Uint63.
From Stdlib Require Import ZArith String Ascii Bool Lia.
From Stdlib Require Import List.
From Stdlib Require Import Sorting.Sorted Sorting.Permutation.
From Stdlib Require Import DecimalString.
Import ListNotations.

Local Open Scope string_scope.
Local Open Scope Z_scope.
Local Open Scope list_scope.

(** ** Python results and exceptions *)

Inductive exn : Type :=
| KeyError (key : string)
| TypeError (msg : string)
| Timeout
| RequestException (msg : string)
| OtherError (msg : string)
| KeyboardInterrupt.

(** [except Exception] does not catch [KeyboardInterrupt], which derives from
    [BaseException]. *)
Definition is_Exception (e : exn) : bool :=
  match e with
  | KeyboardInterrupt => false
  | _ => true
  end.

Inductive result (A : Type) : Type :=
| Ok (a : A)
| Raise (e : exn).
Arguments Ok {A} a.
Arguments Raise {A} e.

Definition result_bind {A B} (r : result A) (k : A -> result B) : result B :=
  match r with
  | Ok a => k a
  | Raise e => Raise e
  end.

Fixpoint result_map_list {A B} (f : A -> result B) (l : list A) : result (list B) :=
  match l with
  | [] => Ok []
  | x :: l' =>
      result_bind (f x) (fun y =>
      result_bind (result_map_list f l') (fun ys => Ok (y :: ys)))
  end.

(** A computation over a mutable store [S] that may raise. *)
Definition M (S A : Type) : Type := S -> result A * S.

Definition ret {S A} (a : A) : M S A := fun s => (Ok a, s).
Definition raise {S A} (e : exn) : M S A := fun s => (Raise e, s).
Definition bind {S A B} (c : M S A) (k : A -> M S B) : M S B :=
  fun s =>
    match c s with
    | (Ok a, s') => k a s'
    | (Raise e, s') => (Raise e, s')
    end.
Definition lift {S A} (r : result A) : M S A := fun s => (r, s).
Definition get {S} : M S S := fun s => (Ok s, s).
Definition put {S} (s : S) : M S unit := fun _ => (Ok tt, s).

(** [try: c except Exception as e: h e] *)
Definition try_except {S A} (c : M S A) (h : exn -> M S A) : M S A :=
  fun s =>
    match c s with
    | (Ok a, s') => (Ok a, s')
    | (Raise e, s') => if is_Exception e then h e s' else (Raise e, s')
    end.

Declare Scope py_scope.
Delimit Scope py_scope with py.
Notation "x <- c ;; k" := (bind c (fun x => k))
  (at level 100, c at next level, right associativity) : py_scope.
Notation "c ;;; k" := (bind c (fun _ => k))
  (at level 100, right associativity) : py_scope.

(** ** imagehash.ImageHash *)

(** The flattened boolean array of an [ImageHash]. *)
Definition ImageHash : Type := list bool.

(** [numpy.count_nonzero(a != b)] on two flattened arrays. *)
Fixpoint count_nonzero_ne (a b : ImageHash) : Z :=
  match a, b with
  | x :: a', y :: b' => (if xorb x y then 1 else 0) + count_nonzero_ne a' b'
  | _, _ => 0
  end.

(** [ImageHash.__sub__]: the Hamming distance, [TypeError] when the two hashes
    differ in size. *)
Definition ImageHash_sub (self other : ImageHash) : result Z :=
  if Nat.eqb (length self) (length other)
  then Ok (count_nonzero_ne self other)
  else Raise (TypeError "ImageHashes must be of the same shape.").

(** ** The imaging libraries *)

Class ImageHashLib : Type := {
  (** An image whose pixel data has been loaded. *)
  Image : Type;
  (** [base64.b64decode] *)
  b64decode : string -> result string;
  (** [Image.open] on in-memory bytes together with the loading of the pixel
      data that the first hash forces: [Image.open] is lazy, and a file that it
      accepts (a truncated one) can still fail to load.  In every function
      but [match_card_file] nothing that can raise stands between the two. *)
  Image_open : string -> result Image;
  (** [Image.open] alone: the reading of the header. *)
  Image_identify : string -> result unit;
  (** [Image.open] on a path of the file system, with the loading as well *)
  Image_open_path : string -> result Image;
  (** [imagehash.phash(image, hash_size, highfreq_factor)] on a loaded image *)
  phash : Image -> nat -> nat -> ImageHash;
  (** [imagehash.dhash(image, hash_size)] *)
  dhash : Image -> nat -> ImageHash;
  (** [imagehash.whash(image, hash_size)] *)
  whash : Image -> nat -> ImageHash;
  (** [imagehash.colorhash(image, binbits)] *)
  colorhash : Image -> nat -> ImageHash;
  (** [repr(s)] for a string [s] *)
  repr : string -> string;
  (** [s.capitalize()] *)
  capitalize : string -> string;
  phash_shape : forall img n hf, (2 <= n)%nat -> length (phash img n hf) = (n * n)%nat;
  dhash_shape : forall img n, (2 <= n)%nat -> length (dhash img n) = (n * n)%nat;
  whash_shape : forall img k, length (whash img (2 ^ k)) = (2 ^ k * 2 ^ k)%nat;
  colorhash_shape : forall img binbits, length (colorhash img binbits) = (14 * binbits)%nat;
  (** What [Image.open] refuses is not loaded either, with the same exception. *)
  Image_identify_open : forall bytes e,
    Image_identify bytes = Raise e -> Image_open bytes = Raise e
}.

(** [str(e)]; the [str] of a [KeyError] is the [repr] of its key. *)
Definition str_exn {L : ImageHashLib} (e : exn) : string :=
  match e with
  | KeyError key => repr key
  | TypeError msg => msg
  | Timeout => "timed out"
  | RequestException msg => msg
  | OtherError msg => msg
  | KeyboardInterrupt => ""
  end.

(** ** The hash dictionary and the data frame *)

Record Hashes : Type := {
  perceptual : ImageHash;
  difference : ImageHash;
  wavelet : ImageHash;
  color : ImageHash
}.

(** [hashes_dict[key]] *)
Definition Hashes_getitem (h : Hashes) (key : string) : result ImageHash :=
  if (key =? "perceptual")%string then Ok (perceptual h)
  else if (key =? "difference")%string then Ok (difference h)
  else if (key =? "wavelet")%string then Ok (wavelet h)
  else if (key =? "color")%string then Ok (color h)
  else Raise (KeyError key).

Record CardRow : Type := {
  id : string;
  row_hashes :> Hashes
}.

(** The frame has a [RangeIndex] (every [concat] is [ignore_index=True]), so a
    row's label is its position.  [distance] is the column that
    [get_most_similar] writes; [None] in it is [NaN]. *)
Record DataFrame : Type := {
  rows : list CardRow;
  distance : option (list (option Z))
}.

Definition empty_frame : DataFrame := {| rows := []; distance := None |}.

Inductive Series : Type :=
| StrSeries (l : list string)
| HashSeries (l : list ImageHash)
| NumSeries (l : list (option Z)).

(** [df[key]] *)
Definition DataFrame_getitem (df : DataFrame) (key : string) : result Series :=
  if (key =? "id")%string then Ok (StrSeries (map id (rows df)))
  else if (key =? "perceptual")%string then Ok (HashSeries (map (fun r : CardRow => perceptual r) (rows df)))
  else if (key =? "difference")%string then Ok (HashSeries (map (fun r : CardRow => difference r) (rows df)))
  else if (key =? "wavelet")%string then Ok (HashSeries (map (fun r : CardRow => wavelet r) (rows df)))
  else if (key =? "color")%string then Ok (HashSeries (map (fun r : CardRow => color r) (rows df)))
  else if (key =? "distance")%string then
    match distance df with
    | Some d => Ok (NumSeries d)
    | None => Raise (KeyError key)
    end
  else Raise (KeyError key).

(** The message of pandas when the operand of an object column is not a
    scalar. *)
Definition broadcast_message : string :=
  "Cannot broadcast np.ndarray with operand of type <class 'imagehash.ImageHash'>".

(** [series - h], element by element.  When an element raises [TypeError]
    (a hash of another size, or no hash at all), pandas retries with its
    masked operation, which refuses the [ImageHash] operand with a [TypeError]
    of its own. *)
Definition Series_sub (s : Series) (h : ImageHash) : result (list Z) :=
  match s with
  | HashSeries l =>
      match result_map_list (fun x => ImageHash_sub x h) l with
      | Raise (TypeError _) => Raise (TypeError broadcast_message)
      | r => r
      end
  | StrSeries [] | NumSeries [] => Ok []
  | _ => Raise (TypeError broadcast_message)
  end.

(** [df["distance"] = values] *)
Definition set_distance (df : DataFrame) (values : list Z) : DataFrame :=
  {| rows := rows df; distance := Some (map Some values) |}.

(** [pd.concat([df, pd.DataFrame(new_rows)], ignore_index=True)]: the new rows
    have no [distance], so they get [NaN] there when the column exists. *)
Definition concat (df : DataFrame) (new_rows : list CardRow) : DataFrame :=
  {| rows := rows df ++ new_rows;
     distance :=
       match distance df with
       | Some d => Some (d ++ repeat None (length new_rows))
       | None => None
       end |}.

(** ** Series.nsmallest *)

(** A series of integers with its index: (label, value) pairs. *)
Definition enumerate (values : list Z) : list (nat * Z) :=
  combine (seq 0 (length values)) values.

Fixpoint insert_by_value (x : nat * Z) (l : list (nat * Z)) : list (nat * Z) :=
  match l with
  | [] => [x]
  | y :: l' => if snd x <=? snd y then x :: l else y :: insert_by_value x l'
  end.

(** A stable ascending sort: an element goes in front of the later elements
    of equal value. *)
Definition sort_values (l : list (nat * Z)) : list (nat * Z) :=
  fold_right insert_by_value [] l.

(** [values.nsmallest(n)], with [keep="first"] as pandas documents it: of
    equal values the first in the series wins, also when [n] is at least the
    length of the series, where pandas sorts the whole series. *)
Definition nsmallest (n : Z) (values : list Z) : list (nat * Z) :=
  if n <=? 0 then []
  else firstn (Z.to_nat n) (sort_values (enumerate values)).

(** ** Strings *)

(** [s.split(sep)] for a one-character separator. *)
Fixpoint split (sep : ascii) (s : string) : list string :=
  match s with
  | EmptyString => [EmptyString]
  | String c s' =>
      if Ascii.eqb c sep then EmptyString :: split sep s'
      else match split sep s' with
           | [] => [String c EmptyString]
           | w :: ws => String c w :: ws
           end
  end.

(** [sep in s] for a one-character [sep]. *)
Fixpoint contains (sep : ascii) (s : string) : bool :=
  match s with
  | EmptyString => false
  | String c s' => Ascii.eqb c sep || contains sep s'
  end.

(** [s.startswith(prefixes)] for a tuple of prefixes. *)
Definition startswith (s : string) (prefixes : list string) : bool :=
  existsb (fun p => String.prefix p s) prefixes.

Definition upper (c : ascii) : ascii :=
  let n := nat_of_ascii c in
  if ((97 <=? n) && (n <=? 122))%nat then ascii_of_nat (n - 32) else c.

Definition lower (c : ascii) : ascii :=
  let n := nat_of_ascii c in
  if ((65 <=? n) && (n <=? 90))%nat then ascii_of_nat (n + 32) else c.

Fixpoint string_map (f : ascii -> ascii) (s : string) : string :=
  match s with
  | EmptyString => EmptyString
  | String c s' => String (f c) (string_map f s')
  end.

(** [s.capitalize()] for a string of ASCII characters. *)
Definition ascii_capitalize (s : string) : string :=
  match s with
  | EmptyString => EmptyString
  | String c s' => String (upper c) (string_map lower s')
  end.

(** A byte that continues a code point in UTF-8. *)
Definition is_continuation (c : ascii) : bool :=
  let n := nat_of_ascii c in ((128 <=? n) && (n <? 192))%nat.

(** [s[:n]]: the first [n] code points of a string held in UTF-8. *)
Fixpoint str_prefix (n : nat) (s : string) : string :=
  match s with
  | EmptyString => EmptyString
  | String c s' =>
      if is_continuation c then String c (str_prefix n s')
      else match n with
           | O => EmptyString
           | S n' => String c (str_prefix n' s')
           end
  end.

(** [str(n)] for an integer. *)
Definition str_int (n : Z) : string := NilZero.string_of_int (Z.to_int n).

Definition hex_digit (n : nat) : ascii :=
  nth n (list_ascii_of_string "0123456789abcdef") "0"%char.

Definition bit (b : bool) : nat := if b then 1%nat else 0%nat.

Fixpoint hex_of_bits (bits : list bool) : string :=
  match bits with
  | b3 :: b2 :: b1 :: b0 :: rest =>
      String (hex_digit (8 * bit b3 + 4 * bit b2 + 2 * bit b1 + bit b0)) (hex_of_bits rest)
  | _ => EmptyString
  end.

Definition backslash : ascii := ascii_of_nat 92.
Definition double_quote : ascii := ascii_of_nat 34.

Definition repr_char (quote c : ascii) : string :=
  let n := nat_of_ascii c in
  if Ascii.eqb c backslash then String backslash (String backslash EmptyString)
  else if Ascii.eqb c quote then String backslash (String quote EmptyString)
  else if (n =? 9)%nat then String backslash "t"
  else if (n =? 10)%nat then String backslash "n"
  else if (n =? 13)%nat then String backslash "r"
  else if ((n <? 32) || (n =? 127))%nat
       then String backslash (String "x" (String (hex_digit (n / 16))
                                            (String (hex_digit (n mod 16)) EmptyString)))
  else String c EmptyString.

Fixpoint repr_chars (quote : ascii) (s : string) : string :=
  match s with
  | EmptyString => String quote EmptyString
  | String c s' => (repr_char quote c ++ repr_chars quote s')%string
  end.

(** [repr(s)] for a string of ASCII characters: in single quotes, or in
    double quotes when it holds a single quote and no double quote. *)
Definition ascii_repr (s : string) : string :=
  let quote := if contains "'" s && negb (contains double_quote s)
               then double_quote else "'"%char in
  String quote (repr_chars quote s).

(** [str(h)] for an [ImageHash]: the bits read as one binary number, printed
    in hexadecimal and zero-padded to [ceil(len / 4)] digits. *)
Definition ImageHash_str (h : ImageHash) : string :=
  hex_of_bits (repeat false ((4 - length h mod 4) mod 4) ++ h).

(** ** Numbers *)

(** A Python number: an [int] or a [float]. *)
Inductive number : Type :=
| Int (z : Z)
| Float (f : float).

(** [float(z)], exact for [0 <= z < 2^53]. *)
Definition float_of_int (z : Z) : float := PrimFloat.of_uint63 (Uint63.of_Z z).

Definition to_float (x : number) : float :=
  match x with
  | Int z => float_of_int z
  | Float f => f
  end.

(** [a < b] *)
Definition number_ltb (a b : number) : bool :=
  match a, b with
  | Int x, Int y => x <? y
  | _, _ => PrimFloat.ltb (to_float a) (to_float b)
  end.

(** [a == b] *)
Definition number_eqb (a b : number) : bool :=
  match a, b with
  | Int x, Int y => x =? y
  | _, _ => PrimFloat.eqb (to_float a) (to_float b)
  end.

(** [min(a, b)]: the first of the smallest. *)
Definition py_min (a b : number) : number := if number_ltb b a then b else a.

(** [max(a, b)]: the first of the largest. *)
Definition py_max (a b : number) : number := if number_ltb a b then b else a.

(** [a / b] on two ints (true division). *)
Definition truediv (a b : Z) : number :=
  Float (PrimFloat.div (float_of_int a) (float_of_int b)).

(** [a - x] for an int [a]. *)
Definition int_sub (a : Z) (x : number) : number :=
  match x with
  | Int z => Int (a - z)
  | Float f => Float (PrimFloat.sub (float_of_int a) f)
  end.

(** Round-half-even of [num / den] for [den > 0]. *)
Definition div_half_even (num den : Z) : Z :=
  let q := num / den in
  let r := num mod den in
  match 2 * r ?= den with
  | Lt => q
  | Gt => q + 1
  | Eq => if Z.even q then q else q + 1
  end.

(** The tenths nearest to a finite float: [m * 2^e * 10], rounded
    half-even on the exact value, as the correctly rounded [round(x, 1)]. *)
Definition tenths_of_float (f : float) : option Z :=
  match Prim2SF f with
  | S754_zero _ => Some 0
  | S754_finite s m e =>
      let t := if 0 <=? e then 10 * Z.pos m * 2 ^ e
               else div_half_even (10 * Z.pos m) (2 ^ (- e)) in
      Some (if s then - t else t)
  | _ => None
  end.

(** [round(x, 1)]: an int stays an int; a float becomes the float nearest to
    its nearest tenth. *)
Definition round1 (x : number) : number :=
  match x with
  | Int z => Int z
  | Float f =>
      match tenths_of_float f with
      | Some t =>
          if 0 <=? t then Float (PrimFloat.div (float_of_int t) (float_of_int 10))
          else Float (PrimFloat.opp (PrimFloat.div (float_of_int (- t)) (float_of_int 10)))
      | None => Float f
      end
  end.

(** ** api.py *)

Record Match : Type := {
  m_id : string;
  m_distance : Z
}.

(** The body of a JSON request; an absent key is [None]. *)
Record Json : Type := {
  image : option string;
  hash_type : option string;
  top_n : option Z;
  threshold : option Z;
  card_id : option string
}.

(** [data.get(key, default)] *)
Definition get_default {A} (field : option A) (default : A) : A :=
  match field with
  | Some a => a
  | None => default
  end.

(** What a handler returns: [jsonify(body)] (status 200), or
    [jsonify(success=False, error=..., best_match=...), status]. *)
Inductive Response (A : Type) : Type :=
| Success (body : A)
| Failure (status : Z) (error : string) (best_match : option Match).
Arguments Success {A} body.
Arguments Failure {A} status error best_match.

Record HashStrings : Type := {
  perceptual_str : string;
  difference_str : string;
  wavelet_str : string;
  color_str : string
}.

Definition str_hashes (h : Hashes) : HashStrings :=
  {| perceptual_str := ImageHash_str (perceptual h);
     difference_str := ImageHash_str (difference h);
     wavelet_str := ImageHash_str (wavelet h);
     color_str := ImageHash_str (color h) |}.

Record MatchBody : Type := {
  matches : list Match;
  body_hash_type : string
}.

Record ComputeHashBody : Type := {
  ch_hashes : HashStrings;
  ch_card_id : option string
}.

Record AddCardBody : Type := {
  ac_card_id : string;
  ac_hashes : HashStrings;
  ac_total_cards : nat
}.

Record RecognizeBody : Type := {
  cardId : string;
  cardName : string;
  res_confidence : number;
  method : string;
  res_distance : Z;
  imageUrl : string;
  res_matches : list Match
}.

(** The state of the service: the global [card_hashes] and the file
    [card_hashes_32b.pickle]. *)
Record Store : Type := {
  card_hashes : DataFrame;
  pickle_file : option DataFrame
}.

(** Run a computation over the global [card_hashes]. *)
Definition on_card_hashes {A} (c : M DataFrame A) : M Store A :=
  fun s =>
    let (r, df) := c (card_hashes s) in
    (r, {| card_hashes := df; pickle_file := pickle_file s |}).

(** [card_hashes.to_pickle("card_hashes_32b.pickle")] *)
Definition to_pickle : M Store unit :=
  fun s => (Ok tt, {| card_hashes := card_hashes s; pickle_file := Some (card_hashes s) |}).

(** Line 347: [max(50, min(100, 100 - (distance / 3)))]. *)
Definition confidence (distance : Z) : number :=
  py_max (Int 50) (py_min (Int 100) (int_sub 100 (truediv distance 3))).

(** Lines 354-368: the image URL of a card id. *)
Definition image_url (card_id : string) : string :=
  (if contains "-" card_id then
     let parts := split "-" card_id in
     let set_id := nth 0 parts "" in
     let card_num := nth 1 parts "" in
     if startswith set_id ["sv"; "swsh"; "sm"; "xy"]
     then "https://assets.tcgdex.net/en/" ++ set_id ++ "/" ++ card_num ++ "/high.png"
     else "https://images.pokemontcg.io/" ++ set_id ++ "/" ++ card_num ++ "_hires.png"
   else "https://assets.tcgdex.net/en/" ++ card_id ++ "/high.png")%string.

Section Api.

Context {L : ImageHashLib}.

Definition get_hashes (img : Image) : Hashes :=
  {| perceptual := phash img 32 8;
     difference := dhash img 32;
     wavelet := whash img 32;
     color := colorhash img 3 |}.

(** Lines 50-51 write the [distance] column of the global frame (twice: the
    differences, then the same values as [int]). *)
Definition get_most_similar (img : Image) (hash_type : string) (n : Z)
  : M DataFrame (list Match) :=
  (let hashes_dict := get_hashes img in
   df <- get ;;
   column <- lift (DataFrame_getitem df hash_type) ;;
   query <- lift (Hashes_getitem hashes_dict hash_type) ;;
   dist <- lift (Series_sub column query) ;;
   put (set_distance df dist) ;;;
   let min_rows := map fst (nsmallest n dist) in
   ret (map (fun idx => {| m_id := nth idx (map id (rows df)) "";
                           m_distance := nth idx dist 0 |}) min_rows))%py.

Definition health (s : Store) : nat := length (rows (card_hashes s)).

(** The image of a request: decoded from base64, then opened. *)
Definition decode_image (b64 : string) : M Store Image :=
  (image_data <- lift (b64decode b64) ;;
   lift (Image_open image_data))%py.

(** [except Exception as e: return jsonify(success=False, error=str(e)), 500] *)
Definition handler {A} (c : M Store (Response A)) : M Store (Response A) :=
  try_except c (fun e => ret (Failure 500 (str_exn e) None)).

Definition match_card (data : option Json) : M Store (Response MatchBody) :=
  handler
    (match data with
     | Some {| image := Some b64; hash_type := ht; top_n := tn |} =>
         img <- decode_image b64 ;;
         let hash_type := get_default ht "perceptual" in
         let top_n := get_default tn 5 in
         matches <- on_card_hashes (get_most_similar img hash_type top_n) ;;
         ret (Success {| matches := matches; body_hash_type := hash_type |})
     | _ => ret (Failure 400 "Missing image data" None)
     end)%py.

Definition compute_hash (data : option Json) : M Store (Response ComputeHashBody) :=
  handler
    (match data with
     | Some {| image := Some b64; card_id := cid |} =>
         img <- decode_image b64 ;;
         let hashes := get_hashes img in
         ret (Success {| ch_hashes := str_hashes hashes; ch_card_id := cid |})
     | _ => ret (Failure 400 "Missing image data" None)
     end)%py.

Definition add_card (data : option Json) : M Store (Response AddCardBody) :=
  handler
    (match data with
     | Some {| image := Some b64; card_id := Some card_id |} =>
         s <- get ;;
         if existsb (String.eqb card_id) (map id (rows (card_hashes s)))
         then ret (Failure 400 ("Card " ++ card_id ++ " already exists in database")%string None)
         else
           img <- decode_image b64 ;;
           let hashes := get_hashes img in
           let new_row := {| id := card_id; row_hashes := hashes |} in
           let df := concat (card_hashes s) [new_row] in
           put {| card_hashes := df; pickle_file := pickle_file s |} ;;;
           to_pickle ;;;
           ret (Success {| ac_card_id := card_id;
                           ac_hashes := str_hashes hashes;
                           ac_total_cards := length (rows df) |})
     | _ => ret (Failure 400 "Missing image or card_id" None)
     end)%py.

Definition recognize_card (data : option Json) : M Store (Response RecognizeBody) :=
  handler
    (match data with
     | Some {| image := Some b64; hash_type := ht; threshold := th |} =>
         img <- decode_image b64 ;;
         let hash_type := get_default ht "perceptual" in
         let threshold := get_default th 30 in
         matches <- on_card_hashes (get_most_similar img hash_type 10) ;;
         match matches with
         | [] => ret (Failure 404 "No matches found" None)
         | best_match :: _ =>
             if threshold <? m_distance best_match
             then ret (Failure 404
                         ("No good match found (best distance: "
                            ++ str_int (m_distance best_match) ++ ")")%string
                         (Some best_match))
             else
               let card_id := m_id best_match in
               ret (Success {| cardId := card_id;
                               cardName := capitalize (nth 0 (split "-" card_id) "");
                               res_confidence := round1 (confidence (m_distance best_match));
                               method := "image-hash";
                               res_distance := m_distance best_match;
                               imageUrl := image_url card_id;
                               res_matches := firstn 5 matches |})
         end
     | _ => ret (Failure 400 "Missing image data" None)
     end)%py.

End Api.

(** ** compute_hash.py *)

Section ComputeHash.

Context {L : ImageHashLib}.

(** The four hashes of lines 16-19, before [str]: [hash_size=16] (and the
    default [highfreq_factor=4]) and [binbits=8]. *)
Definition compute_card_hash_vectors (img : Image) : Hashes :=
  {| perceptual := phash img 16 4;
     difference := dhash img 16;
     wavelet := whash img 16;
     color := colorhash img 8 |}.

(** Returns [None] when anything raises an [Exception]. *)
Definition compute_card_hash (image_path : string) : result (option HashStrings) :=
  match Image_open_path image_path with
  | Ok img => Ok (Some (str_hashes (compute_card_hash_vectors img)))
  | Raise e => if is_Exception e then Ok None else Raise e
  end.

End ComputeHash.

(** ** update_hashes_from_tcgdex.py *)

Record SetInfo : Type := {
  set_id : string;
  (** [x.get('releaseDate', '')] *)
  releaseDate : string
}.

(** The value under the key ['image'] of a card. *)
Inductive CardImage : Type :=
| NoImage
| ImageStr (url : string)
| ImageDict (large small : option string)
| ImageOther.

Record Card : Type := {
  c_id : string;
  c_image : CardImage
}.

(** The TCGdex service behind [requests.get]: a status code with the decoded
    body, or an exception. *)
Record Tcgdex : Type := {
  (** [GET /sets] *)
  get_sets : result (Z * list SetInfo);
  (** [GET /sets/{set_id}], with [set_data.get('cards', [])] as the body *)
  get_set : string -> result (Z * list Card);
  (** [GET image_url] with a timeout of 15 s *)
  get_image : string -> result (Z * string)
}.

(** The files that the builder writes. *)
Record CsvFile : Type := {
  csv_rows : list (string * HashStrings);
  csv_distance : option (list (option Z))
}.

Record Files : Type := {
  card_hashes_32b_pickle : option DataFrame;
  card_hashes_32b_csv : option CsvFile
}.

(** The local variables of [update_hash_database].  [existing_ids] is a set:
    only membership is ever asked of it. *)
Record Locals : Type := {
  existing_df : DataFrame;
  existing_ids : list string;
  new_hashes : list CardRow;
  total_processed : Z;
  total_added : Z;
  total_skipped : Z
}.

(** The final statistics. *)
Record Stats : Type := {
  st_processed : Z;
  st_added : Z;
  st_skipped : Z;
  st_database_total : nat
}.

(** [x or y] on optional strings: [None] and [""] are falsy. *)
Definition str_or (x y : option string) : option string :=
  match x with
  | Some EmptyString | None => y
  | Some _ => x
  end.

(** Lines 137-145; [None] when [not image_url]. *)
Definition card_image_url (card : Card) : option string :=
  let image_url :=
    match c_image card with
    | ImageStr url => Some url
    | ImageDict large small => str_or large small
    | NoImage | ImageOther => None
    end in
  match image_url with
  | Some EmptyString | None => None
  | Some url => Some url
  end.

(** [if limit and total_processed >= limit] *)
Definition limit_reached (limit : option Z) (processed : Z) : bool :=
  match limit with
  | Some l => negb (l =? 0) && (l <=? processed)
  | None => false
  end.

Fixpoint insert_by_release (x : SetInfo) (l : list SetInfo) : list SetInfo :=
  match l with
  | [] => [x]
  | y :: l' =>
      if String.leb (releaseDate y) (releaseDate x) then x :: l
      else y :: insert_by_release x l'
  end.

(** [sorted(all_sets, key=releaseDate, reverse=True)]: descending and stable. *)
Definition sorted_newest_first (all_sets : list SetInfo) : list SetInfo :=
  fold_right insert_by_release [] all_sets.

(** [l[start:]]; a negative [start] counts from the end. *)
Definition slice_from {A} (start : Z) (l : list A) : list A :=
  if 0 <=? start then skipn (Z.to_nat start) l
  else skipn (length l - Z.to_nat (- start)) l.

Definition to_csv (df : DataFrame) : CsvFile :=
  {| csv_rows := map (fun r : CardRow => (id r, str_hashes r)) (rows df);
     csv_distance := distance df |}.

(** [df.to_pickle('card_hashes_32b.pickle')], for a write that runs to its
    end.  The file is written in place: a write cut short (an interrupt or an
    [OSError] in the middle of it) would leave a truncated file, which [Files]
    does not represent; in this model exceptions come from the network calls
    only. *)
Definition write_pickle (df : DataFrame) : M Files unit :=
  fun files => (Ok tt, {| card_hashes_32b_pickle := Some df;
                          card_hashes_32b_csv := card_hashes_32b_csv files |}).

Definition write_csv (csv : CsvFile) : M Files unit :=
  fun files => (Ok tt, {| card_hashes_32b_pickle := card_hashes_32b_pickle files;
                          card_hashes_32b_csv := Some csv |}).

Section Builder.

Context {L : ImageHashLib}.
Variable tcgdex : Tcgdex.

Definition get_all_sets : result (list SetInfo) :=
  result_bind (get_sets tcgdex) (fun response =>
    if fst response =? 200 then Ok (snd response) else Ok []).

Definition get_cards_from_set (set_id : string) : result (list Card) :=
  result_bind (get_set tcgdex set_id) (fun response =>
    if fst response =? 200 then Ok (snd response) else Ok []).

(** The three [except] clauses of lines 60-65. *)
Definition hashing_error (e : exn) : result (option Hashes * option string) :=
  match e with
  | Timeout => Ok (None, Some "Timeout (>15s)")
  | RequestException msg => Ok (None, Some ("Network error: " ++ str_prefix 30 msg)%string)
  | KeyboardInterrupt => Raise KeyboardInterrupt
  | _ => Ok (None, Some ("Error: " ++ str_prefix 30 (str_exn e))%string)
  end.

Definition compute_hashes_for_image (image_url : string)
  : result (option Hashes * option string) :=
  match get_image tcgdex image_url with
  | Raise e => hashing_error e
  | Ok (status_code, content) =>
      if negb (status_code =? 200) then Ok (None, Some ("HTTP " ++ str_int status_code)%string)
      else
        match Image_open content with
        | Raise e => hashing_error e
        | Ok img =>
            Ok (Some {| perceptual := phash img 32 8;
                        difference := dhash img 32;
                        wavelet := whash img 32;
                        color := colorhash img 3 |}, None)
        end
  end.

(** Lines 168-180: persist the batch, then make it part of the existing data. *)
Definition save_batch (st : Locals) : M Files Locals :=
  (let updated_df := concat (existing_df st) (new_hashes st) in
   write_pickle updated_df ;;;
   ret {| existing_df := updated_df;
          existing_ids := existing_ids st ++ map id (new_hashes st);
          new_hashes := [];
          total_processed := total_processed st;
          total_added := total_added st;
          total_skipped := total_skipped st |})%py.

Definition count_processed (st : Locals) : Locals :=
  {| existing_df := existing_df st;
     existing_ids := existing_ids st;
     new_hashes := new_hashes st;
     total_processed := total_processed st + 1;
     total_added := total_added st;
     total_skipped := total_skipped st |}.

Definition count_skipped (st : Locals) : Locals :=
  {| existing_df := existing_df st;
     existing_ids := existing_ids st;
     new_hashes := new_hashes st;
     total_processed := total_processed st;
     total_added := total_added st;
     total_skipped := total_skipped st + 1 |}.

Definition append_hashes (card_id : string) (hashes : Hashes) (st : Locals) : Locals :=
  {| existing_df := existing_df st;
     existing_ids := existing_ids st;
     new_hashes := new_hashes st ++ [{| id := card_id; row_hashes := hashes |}];
     total_processed := total_processed st;
     total_added := total_added st + 1;
     total_skipped := total_skipped st |}.

(** The loop over the cards of one set, lines 118-183.  A [KeyboardInterrupt]
    that arrives while an image is fetched leaves the loop as an exception. *)
Fixpoint cards_loop (batch_size : Z) (limit : option Z) (cards : list Card) (st : Locals)
  : M Files Locals :=
  match cards with
  | [] => ret st
  | card :: rest =>
      if limit_reached limit (total_processed st) then ret st
      else
        let st := count_processed st in
        if existsb (String.eqb (c_id card)) (existing_ids st)
        then cards_loop batch_size limit rest (count_skipped st)
        else
          match card_image_url card with
          | None => cards_loop batch_size limit rest st
          | Some image_url =>
              (fetched <- lift (compute_hashes_for_image image_url) ;;
               let st :=
                 match fst fetched with
                 | Some hashes => append_hashes (c_id card) hashes st
                 | None => st
                 end in
               st <- (if batch_size <=? Z.of_nat (length (new_hashes st))
                      then save_batch st else ret st) ;;
               cards_loop batch_size limit rest st)%py
          end
  end.

(** The loop over the sets, lines 108-187. *)
Fixpoint sets_loop (batch_size : Z) (limit : option Z) (sets : list SetInfo) (st : Locals)
  : M Files Locals :=
  match sets with
  | [] => ret st
  | set_info :: rest =>
      (cards <- lift (get_cards_from_set (set_id set_info)) ;;
       st <- cards_loop batch_size limit cards st ;;
       if limit_reached limit (total_processed st) then ret st
       else sets_loop batch_size limit rest st)%py
  end.

Definition update_hash_database (batch_size : Z) (start_from : Z) (limit : option Z)
  : M Files (option Stats) :=
  (files <- get ;;
   let loaded_df :=
     match card_hashes_32b_pickle files with
     | Some df => df
     | None => empty_frame
     end in
   all_sets <- lift get_all_sets ;;
   match all_sets with
   | [] => ret None
   | _ =>
       let all_sets := sorted_newest_first all_sets in
       st <- sets_loop batch_size limit (slice_from start_from all_sets)
               {| existing_df := loaded_df;
                  existing_ids := map id (rows loaded_df);
                  new_hashes := [];
                  total_processed := 0;
                  total_added := 0;
                  total_skipped := 0 |} ;;
       (match new_hashes st with
        | [] => ret tt
        | _ => write_pickle (concat (existing_df st) (new_hashes st))
        end) ;;;
       files <- get ;;
       (match card_hashes_32b_pickle files with
        | Some df => write_csv (to_csv df)
        | None => ret tt
        end) ;;;
       ret (Some {| st_processed := total_processed st;
                    st_added := total_added st;
                    st_skipped := total_skipped st;
                    st_database_total :=
                      (length (rows (existing_df st)) + length (new_hashes st))%nat |})
   end)%py.

(** How the script ends. *)
Inductive Outcome : Type :=
| Finished (stats : option Stats)
| InterruptedByUser
| Crashed (e : exn).

(** Lines 243-251: run with [batch_size = 50]; [KeyboardInterrupt] and every
    other exception are caught and reported, nothing more. *)
Definition main (limit : option Z) (start_from : Z) (files : Files) : Outcome * Files :=
  match update_hash_database 50 start_from limit files with
  | (Ok stats, files') => (Finished stats, files')
  | (Raise KeyboardInterrupt, files') => (InterruptedByUser, files')
  | (Raise e, files') => (Crashed e, files')
  end.

End Builder.

(** ** A reference implementation of the imaging libraries

    An image is a bitmap given as a string of ['0'] and ['1']; each hash is
    the bitmap cut or zero-padded to the documented size; [repr] and
    [capitalize] are the ones of ASCII strings.  It shows that the class is
    inhabited and lets the service run on concrete requests. *)

Definition resize (n : nat) (bits : list bool) : list bool :=
  firstn n bits ++ repeat false (n - length bits).

Lemma resize_length (n : nat) (bits : list bool) : length (resize n bits) = n.
Proof.
  unfold resize. rewrite length_app, length_firstn, repeat_length. lia.
Qed.

Definition bitmap_of_string (s : string) : list bool :=
  map (fun c => Ascii.eqb c "1") (list_ascii_of_string s).

Definition bitmap_open (s : string) : result (list bool) :=
  match s with
  | EmptyString => Raise (OtherError "cannot identify image file")
  | _ => Ok (bitmap_of_string s)
  end.

Definition bitmap_identify (s : string) : result unit :=
  match s with
  | EmptyString => Raise (OtherError "cannot identify image file")
  | _ => Ok tt
  end.

Lemma bitmap_identify_open (bytes : string) (e : exn) :
  bitmap_identify bytes = Raise e -> bitmap_open bytes = Raise e.
Proof. destruct bytes; simpl; [intros [= <-]; reflexivity | discriminate]. Qed.

Definition bitmap_lib : ImageHashLib :=
  {| Image := list bool;
     b64decode := fun s => Ok s;
     Image_open := bitmap_open;
     Image_identify := bitmap_identify;
     Image_open_path := bitmap_open;
     phash := fun img n _ => resize (n * n) img;
     dhash := fun img n => resize (n * n) img;
     whash := fun img n => resize (n * n) img;
     colorhash := fun img binbits => resize (14 * binbits) img;
     repr := ascii_repr;
     capitalize := ascii_capitalize;
     phash_shape := fun img n _ _ => resize_length (n * n) img;
     dhash_shape := fun img n _ => resize_length (n * n) img;
     whash_shape := fun img k => resize_length (2 ^ k * 2 ^ k) img;
     colorhash_shape := fun img binbits => resize_length (14 * binbits) img;
     Image_identify_open := bitmap_identify_open |}.

(** * Properties *)

(** ** The monad *)

Lemma result_map_list_ok {A B} (f : A -> result B) (g : A -> B) (l : list A) :
  Forall (fun x => f x = Ok (g x)) l -> result_map_list f l = Ok (map g l).
Proof.
  induction 1 as [| x l Hx _ IH]; simpl.
  - reflexivity.
  - rewrite Hx, IH. reflexivity.
Qed.

(** ** Hamming distance *)

Lemma count_nonzero_ne_bounds (a b : ImageHash) :
  0 <= count_nonzero_ne a b <= Z.of_nat (length b).
Proof.
  revert b. induction a as [| x a IH]; intros [| y b]; simpl length; simpl count_nonzero_ne; try lia.
  specialize (IH b). destruct (xorb x y); lia.
Qed.

Lemma ImageHash_sub_same_size (a b : ImageHash) :
  length a = length b -> ImageHash_sub a b = Ok (count_nonzero_ne a b).
Proof.
  intros H. unfold ImageHash_sub. rewrite H, Nat.eqb_refl. reflexivity.
Qed.

Lemma ImageHash_sub_other_size (a b : ImageHash) :
  length a <> length b ->
  ImageHash_sub a b = Raise (TypeError "ImageHashes must be of the same shape.").
Proof.
  intros H. unfold ImageHash_sub.
  destruct (Nat.eqb_spec (length a) (length b)); [contradiction | reflexivity].
Qed.

(** ** nsmallest *)

(** Smaller value first; among equal values, smaller label first. *)
Definition lex_lt (a b : nat * Z) : Prop :=
  snd a < snd b \/ (snd a = snd b /\ (fst a < fst b)%nat).

Definition label_lt (a b : nat * Z) : Prop := (fst a < fst b)%nat.

Lemma insert_by_value_perm (x : nat * Z) (l : list (nat * Z)) :
  Permutation (insert_by_value x l) (x :: l).
Proof.
  induction l as [| y l IH]; simpl.
  - apply Permutation_refl.
  - destruct (snd x <=? snd y).
    + apply Permutation_refl.
    + eapply perm_trans; [apply perm_skip, IH | apply perm_swap].
Qed.

Lemma sort_values_perm (l : list (nat * Z)) : Permutation (sort_values l) l.
Proof.
  induction l as [| x l IH]; simpl.
  - apply perm_nil.
  - eapply perm_trans; [apply insert_by_value_perm | apply perm_skip, IH].
Qed.

Lemma insert_by_value_sorted (x : nat * Z) (l : list (nat * Z)) :
  StronglySorted lex_lt l ->
  Forall (label_lt x) l ->
  StronglySorted lex_lt (insert_by_value x l).
Proof.
  induction 1 as [| y l Hl IH Hy]; intros Hx; simpl.
  - repeat constructor.
  - inversion Hx as [| ? ? Hxy Hxl]; subst.
    destruct (Z.leb_spec (snd x) (snd y)) as [Hle | Hgt].
    + constructor; [constructor; assumption |].
      constructor.
      * unfold lex_lt, label_lt in *. lia.
      * rewrite Forall_forall in *. intros z Hz.
        specialize (Hy z Hz). specialize (Hxl z Hz).
        unfold lex_lt, label_lt in *. lia.
    + constructor; [apply IH; assumption |].
      rewrite Forall_forall in *. intros z Hz.
      apply (Permutation_in _ (insert_by_value_perm x l)) in Hz.
      destruct Hz as [<- | Hz]; [left; lia | apply Hy, Hz].
Qed.

Lemma sort_values_sorted (l : list (nat * Z)) :
  StronglySorted label_lt l -> StronglySorted lex_lt (sort_values l).
Proof.
  induction 1 as [| x l Hl IH Hx]; simpl.
  - constructor.
  - apply insert_by_value_sorted; [assumption |].
    rewrite Forall_forall in *. intros z Hz.
    apply Hx, (Permutation_in _ (sort_values_perm l)), Hz.
Qed.

Lemma in_combine_seq (values : list Z) (start i : nat) (d : Z) :
  In (i, d) (combine (seq start (length values)) values) <->
  (start <= i)%nat /\ nth_error values (i - start) = Some d.
Proof.
  revert start. induction values as [| v values IH]; intros start; simpl.
  - split; [tauto | intros [_ H]; destruct (i - start)%nat; discriminate].
  - rewrite IH. split.
    + intros [H | [Hle H]].
      * injection H as <- <-. rewrite Nat.sub_diag. split; [lia | reflexivity].
      * split; [lia |]. replace (i - start)%nat with (S (i - S start)) by lia. exact H.
    + intros [Hle H]. destruct (Nat.eq_dec start i) as [<- | Hne].
      * rewrite Nat.sub_diag in H. injection H as <-. left; reflexivity.
      * right. split; [lia |].
        replace (i - start)%nat with (S (i - S start)) in H by lia. exact H.
Qed.

Lemma in_enumerate (values : list Z) (i : nat) (d : Z) :
  In (i, d) (enumerate values) <-> nth_error values i = Some d.
Proof.
  unfold enumerate. rewrite in_combine_seq, Nat.sub_0_r.
  split; [tauto | split; [lia | assumption]].
Qed.

Lemma combine_seq_increasing (values : list Z) (start : nat) :
  StronglySorted label_lt (combine (seq start (length values)) values).
Proof.
  revert start. induction values as [| v values IH]; intros start; simpl.
  - constructor.
  - constructor; [apply IH |].
    rewrite Forall_forall. intros [i d] Hin.
    apply in_combine_seq in Hin. unfold label_lt; simpl. lia.
Qed.

Lemma sort_values_enumerate_sorted (values : list Z) :
  StronglySorted lex_lt (sort_values (enumerate values)).
Proof. apply sort_values_sorted, combine_seq_increasing. Qed.

Lemma StronglySorted_firstn {A} (R : A -> A -> Prop) (n : nat) (l : list A) :
  StronglySorted R l -> StronglySorted R (firstn n l).
Proof.
  intros H. revert n. induction H as [| x l Hl IH Hx]; intros [| n]; simpl; try constructor.
  - apply IH.
  - rewrite Forall_forall in *. intros y Hy. apply Hx.
    rewrite <- (firstn_skipn n l). apply in_or_app. left; exact Hy.
Qed.

Lemma StronglySorted_firstn_skipn {A} (R : A -> A -> Prop) (n : nat) (l : list A) :
  StronglySorted R l ->
  forall a b, In a (firstn n l) -> In b (skipn n l) -> R a b.
Proof.
  intros H. revert n. induction H as [| x l Hl IH Hx]; intros [| n] a b Ha Hb; simpl in *;
    try contradiction.
  destruct Ha as [<- | Ha].
  - rewrite Forall_forall in Hx. apply Hx.
    rewrite <- (firstn_skipn n l). apply in_or_app. right; exact Hb.
  - eapply IH; eassumption.
Qed.


Lemma lex_lt_le_Sorted (l : list (nat * Z)) :
  StronglySorted lex_lt l -> Sorted Z.le (map snd l).
Proof.
  intros H. apply StronglySorted_Sorted.
  induction H as [| x l Hl IH Hx]; simpl; constructor; [assumption |].
  rewrite Forall_forall in *. intros d Hd.
  apply in_map_iff in Hd. destruct Hd as [y [<- Hy]].
  specialize (Hx y Hy). unfold lex_lt in Hx. lia.
Qed.

Lemma nsmallest_in (n : Z) (values : list Z) (p : nat * Z) :
  In p (nsmallest n values) -> nth_error values (fst p) = Some (snd p).
Proof.
  unfold nsmallest. destruct (n <=? 0); [contradiction |].
  intros H. destruct p as [i d]. apply in_enumerate.
  apply (Permutation_in _ (sort_values_perm _)).
  rewrite <- (firstn_skipn (Z.to_nat n) (sort_values _)).
  apply in_or_app. left; exact H.
Qed.

Lemma nsmallest_length (n : Z) (values : list Z) :
  Z.of_nat (length (nsmallest n values)) = Z.min (Z.max n 0) (Z.of_nat (length values)).
Proof.
  unfold nsmallest. destruct (Z.leb_spec n 0) as [Hn | Hn]; simpl; [lia |].
  rewrite length_firstn, (Permutation_length (sort_values_perm _)).
  unfold enumerate. rewrite length_combine, length_seq. lia.
Qed.

Lemma nsmallest_sorted (n : Z) (values : list Z) :
  StronglySorted lex_lt (nsmallest n values).
Proof.
  unfold nsmallest. destruct (n <=? 0); [constructor |].
  apply StronglySorted_firstn, sort_values_enumerate_sorted.
Qed.

Lemma lex_sorted_NoDup_labels (l : list (nat * Z)) :
  StronglySorted lex_lt l ->
  (forall p q, In p l -> In q l -> fst p = fst q -> snd p = snd q) ->
  NoDup (map fst l).
Proof.
  induction 1 as [| x l Hl IH Hx]; intros Hfun; simpl; constructor.
  - intros Hin. apply in_map_iff in Hin. destruct Hin as [y [Heq Hy]].
    rewrite Forall_forall in Hx. specialize (Hx y Hy).
    assert (snd y = snd x) by (apply Hfun; simpl; auto).
    unfold lex_lt in Hx. lia.
  - apply IH. intros p q Hp Hq. apply Hfun; simpl; auto.
Qed.

Lemma nsmallest_NoDup (n : Z) (values : list Z) :
  NoDup (map fst (nsmallest n values)).
Proof.
  apply lex_sorted_NoDup_labels; [apply nsmallest_sorted |].
  intros p q Hp Hq Heq.
  apply nsmallest_in in Hp, Hq. rewrite Heq in Hp. congruence.
Qed.

Lemma nsmallest_selects (n : Z) (values : list Z) (p : nat * Z) (k : nat) (dk : Z) :
  In p (nsmallest n values) ->
  nth_error values k = Some dk ->
  ~ In k (map fst (nsmallest n values)) ->
  lex_lt p (k, dk).
Proof.
  unfold nsmallest. destruct (n <=? 0); [contradiction |].
  intros Hp Hk Hout.
  apply in_enumerate, (Permutation_in _ (Permutation_sym (sort_values_perm _))) in Hk.
  rewrite <- (firstn_skipn (Z.to_nat n) (sort_values _)) in Hk.
  apply in_app_or in Hk. destruct Hk as [Hk | Hk].
  - exfalso. apply Hout. apply in_map_iff. exists (k, dk). auto.
  - eapply StronglySorted_firstn_skipn; eauto using sort_values_enumerate_sorted.
Qed.

Lemma nsmallest_values (n : Z) (values : list Z) :
  map (fun idx => nth idx values 0) (map fst (nsmallest n values)) = map snd (nsmallest n values).
Proof.
  rewrite map_map. apply map_ext_in. intros p Hp.
  apply nsmallest_in in Hp. apply nth_error_nth. exact Hp.
Qed.

(** ** The matching path *)

Definition recognized_hash_types : list string :=
  ["perceptual"; "difference"; "wavelet"; "color"].

(** The sizes that [get_hashes] produces: 32 x 32 bits, and 14 bins of 3 bits. *)
Definition well_shaped_hashes (h : Hashes) : Prop :=
  length (perceptual h) = 1024%nat /\
  length (difference h) = 1024%nat /\
  length (wavelet h) = 1024%nat /\
  length (color h) = 42%nat.

Definition well_shaped (df : DataFrame) : Prop :=
  Forall (fun r : CardRow => well_shaped_hashes r) (rows df).

(** The hash stored under a recognized key. *)
Definition hash_of_type (hash_type : string) (h : Hashes) : ImageHash :=
  match Hashes_getitem h hash_type with
  | Ok x => x
  | Raise _ => []
  end.


Definition match_of (df : DataFrame) (dist : list Z) (idx : nat) : Match :=
  {| m_id := nth idx (map id (rows df)) ""; m_distance := nth idx dist 0 |}.

Section MatchFacts.

Context {L : ImageHashLib}.

Lemma get_hashes_well_shaped (img : Image) : well_shaped_hashes (get_hashes img).
Proof.
  unfold well_shaped_hashes, get_hashes; simpl.
  repeat split.
  - rewrite phash_shape by lia. reflexivity.
  - rewrite dhash_shape by lia. reflexivity.
  - change 32%nat with (2 ^ 5)%nat. rewrite whash_shape. reflexivity.
  - rewrite colorhash_shape. reflexivity.
Qed.

(** The distance of every catalog record to the query, in catalog order. *)
Definition distances (df : DataFrame) (img : Image) (hash_type : string) : list Z :=
  map (fun r : CardRow =>
         count_nonzero_ne (hash_of_type hash_type r) (hash_of_type hash_type (get_hashes img)))
      (rows df).

Lemma hash_of_type_same_size (hash_type : string) (a b : Hashes) :
  well_shaped_hashes a -> well_shaped_hashes b ->
  length (hash_of_type hash_type a) = length (hash_of_type hash_type b).
Proof.
  intros (Ha1 & Ha2 & Ha3 & Ha4) (Hb1 & Hb2 & Hb3 & Hb4).
  unfold hash_of_type, Hashes_getitem.
  repeat (destruct (_ =? _)%string; [congruence |]). reflexivity.
Qed.

Lemma get_most_similar_run (df : DataFrame) (img : Image) (hash_type : string) (n : Z) :
  In hash_type recognized_hash_types ->
  well_shaped df ->
  get_most_similar img hash_type n df =
    (Ok (map (match_of df (distances df img hash_type))
             (map fst (nsmallest n (distances df img hash_type)))),
     set_distance df (distances df img hash_type)).
Proof.
  intros Hin Hdf.
  assert (Hsub : forall proj : Hashes -> ImageHash,
            (forall h, hash_of_type hash_type h = proj h) ->
            result_map_list (fun x => ImageHash_sub x (proj (get_hashes img)))
              (map (fun r : CardRow => proj r) (rows df))
            = Ok (distances df img hash_type)).
  { intros proj Hproj.
    rewrite (result_map_list_ok _ (fun x => count_nonzero_ne x (proj (get_hashes img)))).
    - unfold distances. f_equal. rewrite map_map. apply map_ext.
      intros r. rewrite !Hproj. reflexivity.
    - rewrite Forall_map. unfold well_shaped in Hdf.
      eapply Forall_impl; [| exact Hdf]. intros r Hr. simpl.
      apply ImageHash_sub_same_size. rewrite <- !Hproj.
      apply hash_of_type_same_size; [exact Hr | apply get_hashes_well_shaped]. }
  unfold get_most_similar, bind, get, lift, put, ret.
  simpl in Hin.
  destruct Hin as [<- | [<- | [<- | [<- | []]]]]; cbn [DataFrame_getitem Hashes_getitem String.eqb Ascii.eqb Bool.eqb];
    cbn [Series_sub]; rewrite Hsub by reflexivity; reflexivity.
Qed.

Lemma distances_length (df : DataFrame) (img : Image) (hash_type : string) :
  length (distances df img hash_type) = length (rows df).
Proof. unfold distances. apply length_map. Qed.

Lemma distances_bounds (df : DataFrame) (img : Image) (hash_type : string) (d : Z) :
  In d (distances df img hash_type) -> 0 <= d <= 1024.
Proof.
  unfold distances. intros H. apply in_map_iff in H. destruct H as [r [<- _]].
  pose proof (count_nonzero_ne_bounds (hash_of_type hash_type r)
                (hash_of_type hash_type (get_hashes img))) as Hb.
  assert (length (hash_of_type hash_type (get_hashes img)) <= 1024)%nat; [| lia].
  destruct (get_hashes_well_shaped img) as (H1 & H2 & H3 & H4).
  unfold hash_of_type, Hashes_getitem.
  repeat (destruct (_ =? _)%string; [lia |]). simpl. lia.
Qed.

(** The Hamming distance of a catalog record to the query image, on the
    fingerprints of the given type. *)
Definition distance_to (img : Image) (hash_type : string) (r : CardRow) : Z :=
  count_nonzero_ne (hash_of_type hash_type r) (hash_of_type hash_type (get_hashes img)).

Lemma distances_nth_error (df : DataFrame) (img : Image) (hash_type : string) (k : nat) :
  nth_error (distances df img hash_type) k
  = option_map (distance_to img hash_type) (nth_error (rows df) k).
Proof. unfold distances. rewrite nth_error_map. reflexivity. Qed.

Lemma distances_nth (df : DataFrame) (img : Image) (hash_type : string) (k : nat) (r : CardRow) :
  nth_error (rows df) k = Some r ->
  nth k (distances df img hash_type) 0 = distance_to img hash_type r.
Proof.
  intros Hr. apply nth_error_nth. rewrite distances_nth_error, Hr. reflexivity.
Qed.

Lemma match_of_record (df : DataFrame) (img : Image) (hash_type : string) (k : nat) (r : CardRow) :
  nth_error (rows df) k = Some r ->
  match_of df (distances df img hash_type) k
  = {| m_id := id r; m_distance := distance_to img hash_type r |}.
Proof.
  intros Hr. unfold match_of. f_equal.
  - apply nth_error_nth. rewrite nth_error_map, Hr. reflexivity.
  - apply distances_nth, Hr.
Qed.

Lemma Forall2_map_of {A B} (P : A -> B -> Prop) (f : A -> B) (l : list A) :
  (forall x, In x l -> P x (f x)) -> Forall2 P l (map f l).
Proof.
  induction l as [| x l IH]; simpl; intros H; constructor.
  - apply H. left. reflexivity.
  - apply IH. intros y Hy. apply H. right. exact Hy.
Qed.

(** The labels that [nsmallest] selects are positions of the catalog. *)
Lemma nsmallest_row (df : DataFrame) (img : Image) (hash_type : string) (n : Z) (p : nat * Z) :
  In p (nsmallest n (distances df img hash_type)) ->
  exists r : CardRow,
    nth_error (rows df) (fst p) = Some r /\ snd p = distance_to img hash_type r.
Proof.
  intros Hp. apply nsmallest_in in Hp. rewrite distances_nth_error in Hp.
  destruct (nth_error (rows df) (fst p)) as [r |]; [| discriminate].
  exists r. split; [reflexivity |]. simpl in Hp. congruence.
Qed.

(** C1: for a recognized hash type and a catalog whose fingerprints have the
    configured sizes, [get_most_similar] does not raise.  Its results are
    records of the catalog, taken at pairwise distinct positions [min_rows],
    each with its id and its Hamming distance to the query; no record left
    out is nearer to the query than a returned one; the results are sorted by
    non-decreasing distance; there are [min (max n 0) (catalog size)] of
    them, so at most [n], and the whole catalog when [n] exceeds its size;
    the list is empty when the catalog is empty or [n <= 0]. *)
Theorem get_most_similar_sorted_bounded
    (df : DataFrame) (img : Image) (hash_type : string) (n : Z) :
  In hash_type recognized_hash_types ->
  well_shaped df ->
  exists (results : list Match) (df' : DataFrame) (min_rows : list nat),
    get_most_similar img hash_type n df = (Ok results, df') /\
    NoDup min_rows /\
    Forall2 (fun idx m =>
               exists r : CardRow,
                 nth_error (rows df) idx = Some r /\
                 m_id m = id r /\
                 m_distance m = distance_to img hash_type r)
            min_rows results /\
    (forall k r m,
       nth_error (rows df) k = Some r -> ~ In k min_rows -> In m results ->
       m_distance m <= distance_to img hash_type r) /\
    Sorted Z.le (map m_distance results) /\
    Z.of_nat (length results) = Z.min (Z.max n 0) (Z.of_nat (length (rows df))) /\
    (rows df = [] \/ n <= 0 -> results = []).
Proof.
  intros Hin Hdf.
  set (dist := distances df img hash_type).
  exists (map (match_of df dist) (map fst (nsmallest n dist))),
         (set_distance df dist), (map fst (nsmallest n dist)).
  split; [apply get_most_similar_run; assumption |].
  split; [apply nsmallest_NoDup |].
  split; [| split; [| split; [| split]]].
  - apply Forall2_map_of. intros idx Hidx.
    apply in_map_iff in Hidx. destruct Hidx as [p [<- Hp]].
    destruct (nsmallest_row df img hash_type n p Hp) as [r [Hr _]].
    exists r. unfold dist. rewrite (match_of_record df img hash_type _ r Hr).
    repeat split; assumption.
  - intros k r m Hr Hout Hm.
    apply in_map_iff in Hm. destruct Hm as [idx [<- Hidx]].
    apply in_map_iff in Hidx. destruct Hidx as [p [<- Hp]].
    destruct (nsmallest_row df img hash_type n p Hp) as [r' [Hr' Hd]].
    unfold dist. rewrite (match_of_record df img hash_type _ r' Hr'). cbn [m_distance].
    assert (Hnk : nth_error dist k = Some (distance_to img hash_type r)).
    { unfold dist. rewrite distances_nth_error, Hr. reflexivity. }
    pose proof (nsmallest_selects n dist p k _ Hp Hnk Hout) as Hlt.
    unfold lex_lt in Hlt. cbn [fst snd] in Hlt. rewrite <- Hd. lia.
  - rewrite map_map. unfold match_of; simpl.
    rewrite nsmallest_values.
    apply lex_lt_le_Sorted, nsmallest_sorted.
  - rewrite !length_map, nsmallest_length. unfold dist. rewrite distances_length. reflexivity.
  - intros H. apply length_zero_iff_nil.
    apply Nat2Z.inj. rewrite !length_map, nsmallest_length.
    unfold dist. rewrite distances_length.
    destruct H as [-> | H]; simpl; lia.
Qed.


End MatchFacts.

(** ** What the matching path writes *)

(** The store [s'] differs from [s] at most in the [distance] column of the
    frame. *)
Definition only_distance_written (s s' : Store) : Prop :=
  rows (card_hashes s') = rows (card_hashes s) /\
  pickle_file s' = pickle_file s /\
  (distance (card_hashes s') = distance (card_hashes s) \/
   exists dist : list Z,
     length dist = length (rows (card_hashes s)) /\
     distance (card_hashes s') = Some (map Some dist)).

Lemma only_distance_written_refl (s : Store) : only_distance_written s s.
Proof. repeat split; auto. Qed.

Lemma result_map_list_length {A B} (f : A -> result B) (l : list A) (l' : list B) :
  result_map_list f l = Ok l' -> length l' = length l.
Proof.
  revert l'. induction l as [| x l IH]; simpl; intros l' H.
  - injection H as <-. reflexivity.
  - destruct (f x); [| discriminate]. simpl in H.
    destruct (result_map_list f l); [| discriminate]. simpl in H.
    injection H as <-. simpl. f_equal. apply IH. reflexivity.
Qed.

Lemma Series_sub_hashes_ok (l : list ImageHash) (h : ImageHash) (dist : list Z) :
  Series_sub (HashSeries l) h = Ok dist ->
  result_map_list (fun x => ImageHash_sub x h) l = Ok dist.
Proof.
  simpl. destruct (result_map_list _ l) as [d | []]; intros H; try discriminate; exact H.
Qed.

Lemma Hashes_getitem_unrecognized (h : Hashes) (key : string) :
  ~ In key recognized_hash_types -> Hashes_getitem h key = Raise (KeyError key).
Proof.
  intros H. unfold Hashes_getitem.
  repeat match goal with
         | |- context [(key =? ?k)%string] =>
             destruct (String.eqb_spec key k) as [-> | _]; [exfalso; apply H; simpl; tauto |]
         end.
  reflexivity.
Qed.

Lemma Hashes_getitem_ok (h : Hashes) (key : string) (x : ImageHash) :
  Hashes_getitem h key = Ok x -> In key recognized_hash_types.
Proof.
  intros H. unfold Hashes_getitem in H.
  repeat match type of H with
         | context [(key =? ?k)%string] =>
             destruct (String.eqb_spec key k) as [-> | _]; [simpl; tauto |]
         end.
  discriminate.
Qed.

Section FrameFacts.

Context {L : ImageHashLib}.

Lemma decode_image_run (b64 : string) (s : Store) :
  decode_image b64 s = (result_bind (b64decode b64) Image_open, s).
Proof.
  unfold decode_image, bind, lift. destruct (b64decode b64); reflexivity.
Qed.

Lemma handler_state {A} (c : M Store (Response A)) (s : Store) :
  snd (handler c s) = snd (c s).
Proof.
  unfold handler, try_except, ret. destruct (c s) as [[a | e] s']; simpl; [reflexivity |].
  destruct (is_Exception e); reflexivity.
Qed.

(** When the hash type is not recognized, the [KeyError] is raised before the
    frame is written. *)
Lemma get_most_similar_unrecognized (df : DataFrame) (img : Image) (hash_type : string) (n : Z) :
  ~ In hash_type recognized_hash_types ->
  get_most_similar img hash_type n df = (Raise (KeyError hash_type), df).
Proof.
  intros H. unfold get_most_similar, bind, get, lift.
  rewrite (Hashes_getitem_unrecognized _ _ H).
  unfold DataFrame_getitem.
  repeat match goal with
         | |- context [(hash_type =? ?k)%string] =>
             destruct (String.eqb_spec hash_type k) as [-> | _];
             [try reflexivity; try (exfalso; apply H; simpl; tauto) |]
         end; try reflexivity.
  destruct (distance df); reflexivity.
Qed.

Lemma get_most_similar_frame (df : DataFrame) (img : Image) (hash_type : string) (n : Z) :
  let df' := snd (get_most_similar img hash_type n df) in
  df' = df \/
  exists dist : list Z, length dist = length (rows df) /\ df' = set_distance df dist.
Proof.
  unfold get_most_similar, bind, get, lift, put, ret.
  destruct (DataFrame_getitem df hash_type) as [column |] eqn:Hcol; simpl; [| auto].
  destruct (Hashes_getitem (get_hashes img) hash_type) as [query |] eqn:Hq; simpl; [| auto].
  destruct (Series_sub column query) as [dist |] eqn:Hsub; simpl; [| auto].
  right. exists dist. split; [| reflexivity].
  apply Hashes_getitem_ok in Hq. simpl in Hq.
  destruct Hq as [<- | [<- | [<- | [<- | []]]]];
    cbn in Hcol; injection Hcol as <-; apply Series_sub_hashes_ok in Hsub;
    apply result_map_list_length in Hsub; rewrite length_map in Hsub; exact Hsub.
Qed.

Lemma on_get_most_similar_frame (s : Store) (img : Image) (hash_type : string) (n : Z) :
  only_distance_written s (snd (on_card_hashes (get_most_similar img hash_type n) s)).
Proof.
  unfold on_card_hashes.
  pose proof (get_most_similar_frame (card_hashes s) img hash_type n) as H.
  destruct (get_most_similar img hash_type n (card_hashes s)) as [r df']; simpl in *.
  destruct H as [-> | [dist [Hlen ->]]].
  - repeat split; simpl; auto.
  - repeat split; simpl. right. exists dist. auto.
Qed.

Lemma match_card_frame (data : option Json) (s : Store) :
  only_distance_written s (snd (match_card data s)).
Proof.
  unfold match_card. rewrite handler_state.
  destruct data as [[[b64 |] ht tn th cid] |]; try apply only_distance_written_refl.
  unfold bind. rewrite decode_image_run.
  destruct (result_bind (b64decode b64) Image_open) as [img |];
    [| apply only_distance_written_refl].
  pose proof (on_get_most_similar_frame s img (get_default ht "perceptual") (get_default tn 5)) as H.
  destruct (on_card_hashes _ s) as [[ms | e] s']; exact H.
Qed.

Lemma compute_hash_frame (data : option Json) (s : Store) :
  snd (compute_hash data s) = s.
Proof.
  unfold compute_hash. rewrite handler_state.
  destruct data as [[[b64 |] ht tn th cid] |]; try reflexivity.
  unfold bind. rewrite decode_image_run.
  destruct (result_bind (b64decode b64) Image_open); reflexivity.
Qed.

Lemma recognize_card_frame (data : option Json) (s : Store) :
  only_distance_written s (snd (recognize_card data s)).
Proof.
  unfold recognize_card. rewrite handler_state.
  destruct data as [[[b64 |] ht tn th cid] |]; try apply only_distance_written_refl.
  unfold bind. rewrite decode_image_run.
  destruct (result_bind (b64decode b64) Image_open) as [img |];
    [| apply only_distance_written_refl].
  pose proof (on_get_most_similar_frame s img (get_default ht "perceptual") 10) as H.
  destruct (on_card_hashes _ s) as [[ms | e] s']; simpl in *; [| exact H].
  destruct ms as [| best ms]; [exact H |].
  destruct (get_default th 30 <? m_distance best); exact H.
Qed.

(** C5, amended: [compute_hash], [match_card] and [recognize_card] leave the
    rows of the catalog (ids, fingerprints, count, order) and the pickle file
    as they were; [compute_hash] writes nothing; the other two write at most
    the [distance] column of the global frame, one value per record. *)
Theorem matching_path_writes_only_distance (data : option Json) (s : Store) :
  snd (compute_hash data s) = s /\
  only_distance_written s (snd (match_card data s)) /\
  only_distance_written s (snd (recognize_card data s)).
Proof.
  split; [apply compute_hash_frame |].
  split; [apply match_card_frame | apply recognize_card_frame].
Qed.

(** C6, amended: for a hash type outside the four recognized ones and an
    image that decodes, [get_most_similar] raises [KeyError] on the type with
    the frame untouched, and [match_card] and [recognize_card] answer through
    the catch-all handler: status 500, the [str] of the [KeyError], which is
    the [repr] of the type name, the store unchanged. *)
Theorem unrecognized_hash_type_is_a_generic_failure
    (s : Store) (d : Json) (b64 bad_type : string) (img : Image) (n : Z) :
  ~ In bad_type recognized_hash_types ->
  image d = Some b64 ->
  hash_type d = Some bad_type ->
  result_bind (b64decode b64) Image_open = Ok img ->
  get_most_similar img bad_type n (card_hashes s) = (Raise (KeyError bad_type), card_hashes s) /\
  str_exn (KeyError bad_type) = repr bad_type /\
  match_card (Some d) s = (Ok (Failure 500 (repr bad_type) None), s) /\
  recognize_card (Some d) s = (Ok (Failure 500 (repr bad_type) None), s).
Proof.
  intros Hbad Himg Hty Hdec.
  split; [apply get_most_similar_unrecognized, Hbad |].
  destruct d as [im ht tn th cid]; simpl in Himg, Hty; subst im ht.
  destruct s as [df pk].
  unfold match_card, recognize_card, handler, try_except, bind, on_card_hashes.
  rewrite !decode_image_run, Hdec. simpl.
  rewrite !(get_most_similar_unrecognized _ _ _ _ Hbad). simpl.
  repeat split; reflexivity.
Qed.

End FrameFacts.

(** ** The image URL *)

Definition modern_prefixes : list string := ["sv"; "swsh"; "sm"; "xy"].

Definition tcgdex_url (set_id card_num : string) : string :=
  ("https://assets.tcgdex.net/en/" ++ set_id ++ "/" ++ card_num ++ "/high.png")%string.

Definition pokemontcg_url (set_id card_num : string) : string :=
  ("https://images.pokemontcg.io/" ++ set_id ++ "/" ++ card_num ++ "_hires.png")%string.

Definition fallback_url (card_id : string) : string :=
  ("https://assets.tcgdex.net/en/" ++ card_id ++ "/high.png")%string.

(** The id cut at its first separator: what is before it and all that is
    after it. *)
Fixpoint split_first (sep : ascii) (s : string) : option (string * string) :=
  match s with
  | EmptyString => None
  | String c s' =>
      if Ascii.eqb c sep then Some (EmptyString, s')
      else match split_first sep s' with
           | Some (a, b) => Some (String c a, b)
           | None => None
           end
  end.

(** The derivation as the specification words it, for comparison with
    [image_url]: the card number is everything after the first ['-']. *)
Definition image_url_first_dash (card_id : string) : string :=
  match split_first "-" card_id with
  | Some (setPrefix, cardNumber) =>
      if startswith setPrefix modern_prefixes
      then tcgdex_url setPrefix cardNumber
      else pokemontcg_url setPrefix cardNumber
  | None => fallback_url card_id
  end.

Lemma split_no_sep (sep : ascii) (s : string) :
  contains sep s = false -> split sep s = [s].
Proof.
  induction s as [| c s IH]; simpl; intros H; [reflexivity |].
  apply orb_false_iff in H. destruct H as [Hc Hs].
  rewrite Hc, (IH Hs). reflexivity.
Qed.

Lemma split_app (sep : ascii) (a b : string) :
  contains sep a = false ->
  split sep (a ++ String sep b)%string = a :: split sep b.
Proof.
  induction a as [| c a IH]; simpl; intros H.
  - rewrite Ascii.eqb_refl. reflexivity.
  - apply orb_false_iff in H. destruct H as [Hc Ha].
    rewrite Hc, (IH Ha). reflexivity.
Qed.

Lemma contains_app (sep : ascii) (a b : string) :
  contains sep (a ++ String sep b)%string = true.
Proof.
  induction a as [| c a IH]; simpl.
  - rewrite Ascii.eqb_refl. reflexivity.
  - rewrite IH. apply orb_true_r.
Qed.

Lemma split_first_app (sep : ascii) (a b : string) :
  contains sep a = false ->
  split_first sep (a ++ String sep b)%string = Some (a, b).
Proof.
  induction a as [| c a IH]; simpl; intros H.
  - rewrite Ascii.eqb_refl. reflexivity.
  - apply orb_false_iff in H. destruct H as [Hc Ha].
    rewrite Hc, (IH Ha). reflexivity.
Qed.

Lemma image_url_segments (set_id card_num : string) (more : list string) (card_id : string) :
  contains "-" card_id = true ->
  split "-" card_id = set_id :: card_num :: more ->
  image_url card_id =
    if startswith set_id modern_prefixes
    then tcgdex_url set_id card_num
    else pokemontcg_url set_id card_num.
Proof.
  intros Hc Hs. unfold image_url. rewrite Hc, Hs. reflexivity.
Qed.

(** C9, amended: an id without ['-'] gets the fallback URL on the whole id.
    An id [set_id-card_num] followed by nothing or by further ['-']-separated
    segments gets the tcgdex URL when [set_id] starts with one of [sv],
    [swsh], [sm], [xy], and the pokemontcg.io URL otherwise, with [card_num]
    the segment between the first and the second ['-']: the rest is dropped.
    With exactly one ['-'] this is the derivation that cuts at the first
    ['-']. *)
Theorem image_url_uses_second_segment (set_id card_num rest : string) :
  contains "-" set_id = false ->
  contains "-" card_num = false ->
  rest = "" \/ (exists tail, rest = String "-" tail) ->
  image_url (set_id ++ "-" ++ card_num ++ rest)%string =
    (if startswith set_id modern_prefixes
     then tcgdex_url set_id card_num
     else pokemontcg_url set_id card_num) /\
  image_url (set_id ++ "-" ++ card_num)%string
    = image_url_first_dash (set_id ++ "-" ++ card_num)%string /\
  image_url set_id = fallback_url set_id.
Proof.
  intros Hset Hnum Hrest.
  assert (Hone : split "-" (set_id ++ "-" ++ card_num)%string = [set_id; card_num]).
  { change (set_id ++ "-" ++ card_num)%string with (set_id ++ String "-" card_num)%string.
    rewrite (split_app _ _ _ Hset), (split_no_sep _ _ Hnum). reflexivity. }
  split; [| split].
  - destruct Hrest as [-> | [tail ->]].
    + replace (card_num ++ "")%string with card_num
        by (clear; induction card_num; simpl; congruence).
      apply (image_url_segments set_id card_num []); [apply contains_app | exact Hone].
    + apply (image_url_segments set_id card_num (split "-" tail)); [apply contains_app |].
      change (set_id ++ "-" ++ card_num ++ String "-" tail)%string
        with (set_id ++ String "-" (card_num ++ String "-" tail))%string.
      rewrite (split_app _ _ _ Hset), (split_app _ _ _ Hnum). reflexivity.
  - rewrite (image_url_segments set_id card_num []); [| apply contains_app | exact Hone].
    unfold image_url_first_dash.
    change (set_id ++ "-" ++ card_num)%string with (set_id ++ String "-" card_num)%string.
    rewrite (split_first_app _ _ _ Hset). reflexivity.
  - unfold image_url. rewrite Hset. reflexivity.
Qed.

(** ** The confidence *)

(** The formula as the specification words it, in tenths:
    [clamp(100 - d/3, 50, 100)] rounded to one decimal, in exact arithmetic. *)
Definition clamp_formula_tenths (d : Z) : Z :=
  Z.max 500 (Z.min 1000 (div_half_even (3000 - 10 * d) 3)).

Definition float_of_tenths (t : Z) : number :=
  Float (PrimFloat.div (float_of_int t) (float_of_int 10)).

Definition confidence_agrees (d : Z) : bool :=
  number_eqb (round1 (confidence d)) (float_of_tenths (clamp_formula_tenths d)).

Lemma confidence_agrees_upto_1024 :
  forallb (fun k => confidence_agrees (Z.of_nat k)) (seq 0 1025) = true.
Proof. vm_compute. reflexivity. Qed.

(** On every distance that two 1024-bit hashes can have, the reported
    confidence is numerically the clamped formula, rounded to one decimal. *)
Lemma confidence_follows_formula (d : Z) :
  0 <= d <= 1024 -> confidence_agrees d = true.
Proof.
  intros Hd. pose proof confidence_agrees_upto_1024 as H.
  rewrite forallb_forall in H. specialize (H (Z.to_nat d)).
  rewrite Z2Nat.id in H by lia. apply H, in_seq. lia.
Qed.

Lemma clamp_formula_tenths_bounds (d : Z) : 500 <= clamp_formula_tenths d <= 1000.
Proof. unfold clamp_formula_tenths. lia. Qed.

Lemma div_half_even_3_monotone (a b : Z) :
  a <= b -> div_half_even a 3 <= div_half_even b 3.
Proof.
  intros Hab. unfold div_half_even.
  destruct (Z.compare_spec (2 * (a mod 3)) 3), (Z.compare_spec (2 * (b mod 3)) 3);
    try (exfalso; lia); Z.div_mod_to_equations; lia.
Qed.

Lemma clamp_formula_tenths_monotone (d1 d2 : Z) :
  d1 <= d2 -> clamp_formula_tenths d2 <= clamp_formula_tenths d1.
Proof.
  intros H. unfold clamp_formula_tenths.
  pose proof (div_half_even_3_monotone (3000 - 10 * d2) (3000 - 10 * d1)). lia.
Qed.

(** The floor of 50 is reached at distance 150, not 30. *)
Lemma confidence_values :
  round1 (confidence 0) = Int 100 /\
  round1 (confidence 30) = Float 90%float /\
  round1 (confidence 149) = float_of_tenths 503 /\
  round1 (confidence 150) = Int 50 /\
  round1 (confidence 1024) = Int 50.
Proof. vm_compute. repeat split; reflexivity. Qed.

(** ** A sample catalog *)

Definition bitmap_row (card_id bitmap : string) : CardRow :=
  {| id := card_id;
     row_hashes := get_hashes (L := bitmap_lib) (bitmap_of_string bitmap) |}.

(** Against the query ["1100"] the distances are 0, 1, 1, 1. *)
Definition sample_catalog : DataFrame :=
  {| rows := [bitmap_row "base1-4" "1100"; bitmap_row "sv09-142" "1000";
              bitmap_row "swsh4-81" "1110"; bitmap_row "xy1-1" "0100"];
     distance := None |}.

Definition sample_store : Store :=
  {| card_hashes := sample_catalog; pickle_file := Some sample_catalog |}.

Definition request (img : string) (ht : option string) (n : option Z) : Json :=
  {| image := Some img; hash_type := ht; top_n := n; threshold := None; card_id := None |}.

(** One record, 30 bits away from the all-zero query ["0"]. *)
Definition distance_30_store : Store :=
  let df := {| rows := [bitmap_row "base4-1" "111111111111111111111111111111"];
               distance := None |} in
  {| card_hashes := df; pickle_file := Some df |}.

Example match_card_top_2 :
  fst (match_card (L := bitmap_lib) (Some (request "1100" None (Some 2))) sample_store)
  = Ok (Success {| matches := [{| m_id := "base1-4"; m_distance := 0 |};
                               {| m_id := "sv09-142"; m_distance := 1 |}];
                   body_hash_type := "perceptual" |}).
Proof. vm_compute. reflexivity. Qed.

Example match_card_more_than_catalog :
  fst (match_card (L := bitmap_lib) (Some (request "1100" (Some "color") (Some 9))) sample_store)
  = Ok (Success {| matches := [{| m_id := "base1-4"; m_distance := 0 |};
                               {| m_id := "sv09-142"; m_distance := 1 |};
                               {| m_id := "swsh4-81"; m_distance := 1 |};
                               {| m_id := "xy1-1"; m_distance := 1 |}];
                   body_hash_type := "color" |}).
Proof. vm_compute. reflexivity. Qed.

Lemma get_most_similar_sorted_bounded_witness :
  exists (results : list Match) (df' : DataFrame) (min_rows : list nat),
    get_most_similar (L := bitmap_lib) (bitmap_of_string "1100") "perceptual" 3 sample_catalog
      = (Ok results, df') /\
    NoDup min_rows /\
    Forall2 (fun idx m =>
               exists r : CardRow,
                 nth_error (rows sample_catalog) idx = Some r /\
                 m_id m = id r /\
                 m_distance m
                 = distance_to (L := bitmap_lib) (bitmap_of_string "1100") "perceptual" r)
            min_rows results /\
    (forall k r m,
       nth_error (rows sample_catalog) k = Some r -> ~ In k min_rows -> In m results ->
       m_distance m <= distance_to (L := bitmap_lib) (bitmap_of_string "1100") "perceptual" r) /\
    Sorted Z.le (map m_distance results) /\
    Z.of_nat (length results) = Z.min (Z.max 3 0) (Z.of_nat (length (rows sample_catalog))) /\
    (rows sample_catalog = [] \/ 3 <= 0 -> results = []).
Proof.
  apply (get_most_similar_sorted_bounded (L := bitmap_lib)).
  - simpl. auto.
  - unfold well_shaped, well_shaped_hashes. simpl. repeat constructor.
Defined.


(** C5, as stated, fails: a successful [match_card] leaves a store that is
    not the one it started from; the [distance] column has been written. *)
Lemma match_card_writes_the_global_frame :
  snd (match_card (L := bitmap_lib) (Some (request "1100" None None)) sample_store)
    <> sample_store /\
  distance (card_hashes
              (snd (match_card (L := bitmap_lib) (Some (request "1100" None None)) sample_store)))
    = Some [Some 0; Some 1; Some 1; Some 1].
Proof.
  assert (H : distance (card_hashes
                (snd (match_card (L := bitmap_lib) (Some (request "1100" None None))
                        sample_store)))
              = Some [Some 0; Some 1; Some 1; Some 1]) by (vm_compute; reflexivity).
  split; [| exact H].
  intros Heq. rewrite Heq in H. discriminate H.
Qed.

(** The kind of a failure as the client sees it: its status code. *)
Definition failure_status {A} (r : result (Response A)) : option Z :=
  match r with
  | Ok (Failure status _ _) => Some status
  | _ => None
  end.

(** C6, as stated, fails: an unrecognized hash type raises the [KeyError] of
    a failed lookup, and the client gets the status of the catch-all handler,
    the same as for an image that cannot be decoded. *)
Lemma unrecognized_hash_type_has_no_error_of_its_own :
  let bad_type := Some (request "1100" (Some "sha256") None) in
  let bad_image := Some (request "" None None) in
  fst (get_most_similar (L := bitmap_lib) (bitmap_of_string "1100") "sha256" 5 sample_catalog)
    = Raise (KeyError "sha256") /\
  fst (match_card (L := bitmap_lib) bad_type sample_store)
    = Ok (Failure 500 "'sha256'" None) /\
  fst (recognize_card (L := bitmap_lib) bad_type sample_store)
    = Ok (Failure 500 "'sha256'" None) /\
  fst (match_card (L := bitmap_lib) (Some (request "1100" (Some "a\b") None)) sample_store)
    = Ok (Failure 500 "'a\\b'" None) /\
  failure_status (fst (match_card (L := bitmap_lib) bad_type sample_store))
    = failure_status (fst (match_card (L := bitmap_lib) bad_image sample_store)) /\
  failure_status (fst (recognize_card (L := bitmap_lib) bad_type sample_store))
    = failure_status (fst (recognize_card (L := bitmap_lib) bad_image sample_store)).
Proof. vm_compute. repeat split; reflexivity. Qed.

Lemma unrecognized_hash_type_is_a_generic_failure_witness :
  get_most_similar (L := bitmap_lib) (bitmap_of_string "1100") "sha256" 5
      (card_hashes sample_store)
    = (Raise (KeyError "sha256"), card_hashes sample_store) /\
  str_exn (L := bitmap_lib) (KeyError "sha256") = "'sha256'" /\
  match_card (L := bitmap_lib) (Some (request "1100" (Some "sha256") None)) sample_store
    = (Ok (Failure 500 "'sha256'" None), sample_store) /\
  recognize_card (L := bitmap_lib) (Some (request "1100" (Some "sha256") None)) sample_store
    = (Ok (Failure 500 "'sha256'" None), sample_store).
Proof.
  apply (unrecognized_hash_type_is_a_generic_failure (L := bitmap_lib)
           sample_store (request "1100" (Some "sha256") None) "1100" "sha256"
           (bitmap_of_string "1100") 5).
  - simpl. intros [H | [H | [H | [H | []]]]]; discriminate H.
  - reflexivity.
  - reflexivity.
  - reflexivity.
Defined.

(** C9, as stated, fails: with two ['-'] the card number is the middle
    segment, not everything after the first ['-']. *)
Lemma image_url_drops_after_second_dash :
  image_url "sv09-142-a" = "https://assets.tcgdex.net/en/sv09/142/high.png" /\
  image_url_first_dash "sv09-142-a" = "https://assets.tcgdex.net/en/sv09/142-a/high.png" /\
  image_url "sv09-142-a" <> image_url_first_dash "sv09-142-a".
Proof. vm_compute. repeat split; try reflexivity. discriminate. Qed.

Lemma image_url_uses_second_segment_witness :
  image_url ("sv09" ++ "-" ++ "142" ++ "-a")%string =
    (if startswith "sv09" modern_prefixes
     then tcgdex_url "sv09" "142"
     else pokemontcg_url "sv09" "142") /\
  image_url ("sv09" ++ "-" ++ "142")%string
    = image_url_first_dash ("sv09" ++ "-" ++ "142")%string /\
  image_url "sv09" = fallback_url "sv09".
Proof.
  apply (image_url_uses_second_segment "sv09" "142" "-a").
  - reflexivity.
  - reflexivity.
  - right. exists "a". reflexivity.
Defined.

(** C3, at distance 30: [recognize_card] reports 90.0, not 50. *)
Theorem recognize_card_confidence_at_distance_30 :
  match fst (recognize_card (L := bitmap_lib) (Some (request "0" None None)) distance_30_store) with
  | Ok (Success body) =>
      res_distance body = 30 /\
      res_confidence body = Float 90%float /\
      number_eqb (res_confidence body) (Int 50) = false
  | _ => False
  end.
Proof. vm_compute. repeat split; reflexivity. Qed.

(** ** The sizes of the hashes *)

Section HashSizes.

Context {L : ImageHashLib}.

Lemma compute_hashes_for_image_is_get_hashes
    (tcgdex : Tcgdex) (image_url : string) (hashes : Hashes) (error : option string) :
  compute_hashes_for_image tcgdex image_url = Ok (Some hashes, error) ->
  exists img, hashes = get_hashes img.
Proof.
  unfold compute_hashes_for_image.
  assert (Herr : forall e, hashing_error e <> Ok (Some hashes, error)).
  { intros e. destruct e; simpl; discriminate. }
  destruct (get_image tcgdex image_url) as [[status_code content] | e];
    [| intros H; exfalso; exact (Herr e H)].
  destruct (negb (status_code =? 200)); [discriminate |].
  destruct (Image_open content) as [img | e]; [| intros H; exfalso; exact (Herr e H)].
  intros H. injection H as <- _. exists img. reflexivity.
Qed.

(** C8: the service and the builder hash at 32 x 32 bits and 14 x 3 bits, the
    standalone tool at 16 x 16 bits and 14 x 8 bits; a hash of the tool cannot
    be compared with one of the catalog. *)
Theorem compute_card_hash_sizes_differ (img : Image) :
  let tool := compute_card_hash_vectors img in
  let api := get_hashes img in
  (length (perceptual api), length (difference api), length (wavelet api), length (color api))
    = (1024, 1024, 1024, 42)%nat /\
  (length (perceptual tool), length (difference tool), length (wavelet tool), length (color tool))
    = (256, 256, 256, 112)%nat /\
  ImageHash_sub (perceptual api) (perceptual tool)
    = Raise (TypeError "ImageHashes must be of the same shape.") /\
  ImageHash_sub (color api) (color tool)
    = Raise (TypeError "ImageHashes must be of the same shape.").
Proof.
  intros tool api.
  destruct (get_hashes_well_shaped img) as (H1 & H2 & H3 & H4).
  assert (T1 : length (perceptual tool) = 256%nat)
    by (unfold tool; simpl; rewrite phash_shape by lia; reflexivity).
  assert (T2 : length (difference tool) = 256%nat)
    by (unfold tool; simpl; rewrite dhash_shape by lia; reflexivity).
  assert (T3 : length (wavelet tool) = 256%nat)
    by (unfold tool; simpl; change 16%nat with (2 ^ 4)%nat; rewrite whash_shape; reflexivity).
  assert (T4 : length (color tool) = 112%nat)
    by (unfold tool; simpl; rewrite colorhash_shape; reflexivity).
  fold api in H1, H2, H3, H4.
  split; [rewrite H1, H2, H3, H4; reflexivity |].
  split; [rewrite T1, T2, T3, T4; reflexivity |].
  split; apply ImageHash_sub_other_size; lia.
Qed.

End HashSizes.

(** ** add_card *)

Section AddCardFacts.

Context {L : ImageHashLib}.

Lemma existsb_eqb_In (x : string) (l : list string) :
  existsb (String.eqb x) l = true <-> In x l.
Proof.
  rewrite existsb_exists. split.
  - intros [y [Hy Heq]]. apply String.eqb_eq in Heq. subst. exact Hy.
  - intros H. exists x. split; [exact H | apply String.eqb_refl].
Qed.

(** An id that is present is refused with status 400, and nothing changes. *)
Lemma add_card_conflict (s : Store) (d : Json) (b64 cid : string) :
  image d = Some b64 ->
  card_id d = Some cid ->
  In cid (map id (rows (card_hashes s))) ->
  add_card (Some d) s
  = (Ok (Failure 400 ("Card " ++ cid ++ " already exists in database")%string None), s).
Proof.
  intros Himg Hcid Hin. destruct d as [im ht tn th ci]; simpl in *; subst im ci.
  apply existsb_eqb_In in Hin.
  unfold add_card, handler, try_except, bind, get, ret. rewrite Hin. reflexivity.
Qed.

(** [add_card] keeps the ids of the global frame pairwise distinct. *)
Lemma add_card_keeps_ids_distinct (data : option Json) (s : Store) :
  NoDup (map id (rows (card_hashes s))) ->
  NoDup (map id (rows (card_hashes (snd (add_card data s))))).
Proof.
  intros Hnd. unfold add_card. rewrite handler_state.
  destruct data as [[[b64 |] ht tn th [cid |]] |]; try exact Hnd.
  unfold bind, get.
  destruct (existsb (String.eqb cid) (map id (rows (card_hashes s)))) eqn:Hin; [exact Hnd |].
  rewrite decode_image_run.
  destruct (result_bind (b64decode b64) Image_open) as [img |]; [| exact Hnd].
  simpl. rewrite map_app. simpl.
  apply NoDup_incl_NoDup with (l := cid :: map id (rows (card_hashes s))).
  - constructor; [| exact Hnd].
    intros H. apply existsb_eqb_In in H. congruence.
  - rewrite length_app. simpl. lia.
  - intros x Hx. apply in_or_app. simpl in *. tauto.
Qed.

End AddCardFacts.

(** ** The catalog builder *)

(** A TCGdex with one set, [sv01], holding [cards]. *)
Definition one_set (cards : list Card) (images : string -> result (Z * string)) : Tcgdex :=
  {| get_sets := Ok (200, [{| set_id := "sv01"; releaseDate := "2023-03-31" |}]);
     get_set := fun set_id =>
       if (set_id =? "sv01")%string then Ok (200, cards) else Ok (404, []);
     get_image := images |}.

Definition card_with_image (card_id url : string) : Card :=
  {| c_id := card_id; c_image := ImageStr url |}.

Definition no_files : Files :=
  {| card_hashes_32b_pickle := None; card_hashes_32b_csv := None |}.

(** The listing names the card [sv01-1] twice. *)
Definition repeated_card : Tcgdex :=
  one_set [card_with_image "sv01-1" "u1"; card_with_image "sv01-1" "u1"]
          (fun _ => Ok (200, "1100")).

Definition four_cards : list Card :=
  [card_with_image "sv01-1" "u1"; card_with_image "sv01-2" "u2";
   card_with_image "sv01-3" "u3"; card_with_image "sv01-4" "u4"].

(** The operator interrupts while the fourth image is fetched. *)
Definition interrupted_at_fourth : Tcgdex :=
  one_set four_cards
          (fun url => if (url =? "u4")%string then Raise KeyboardInterrupt
                      else Ok (200, "1100")).

Definition uninterrupted : Tcgdex :=
  one_set four_cards (fun _ => Ok (200, "1100")).

(** C4: with the default batch of 50, a card id listed twice is appended
    twice, and the catalog written at the end holds it twice. *)
Theorem builder_appends_a_repeated_id :
  match card_hashes_32b_pickle (snd (main (L := bitmap_lib) repeated_card None 0 no_files)) with
  | Some df => map id (rows df) = ["sv01-1"; "sv01-1"] /\ ~ NoDup (map id (rows df))
  | None => False
  end.
Proof.
  vm_compute. split; [reflexivity |].
  intros H. inversion H as [| x l Hnotin _]. apply Hnotin. left. reflexivity.
Qed.

(** C7: three records are pending when the interrupt arrives; the script
    ends with no file written, and the next run skips nothing and hashes all
    four cards again. *)
Theorem interrupt_loses_the_pending_batch :
  main (L := bitmap_lib) interrupted_at_fourth None 0 no_files = (InterruptedByUser, no_files) /\
  fst (main (L := bitmap_lib) uninterrupted None 0
         (snd (main (L := bitmap_lib) interrupted_at_fourth None 0 no_files)))
  = Finished (Some {| st_processed := 4; st_added := 4; st_skipped := 0;
                      st_database_total := 4 |}).
Proof. vm_compute. split; reflexivity. Qed.

(** ** The limit *)

(** The value of [total_processed] after [count] more cards are offered to
    the loop. *)
Definition processed_after (limit : option Z) (processed count : Z) : Z :=
  match limit with
  | Some l => if l =? 0 then processed + count
              else Z.max processed (Z.min (processed + count) l)
  | None => processed + count
  end.

Lemma processed_after_0 (limit : option Z) (p : Z) : processed_after limit p 0 = p.
Proof. unfold processed_after. destruct limit as [l |]; [destruct (l =? 0) |]; cbv iota; lia. Qed.

Lemma processed_after_reached (limit : option Z) (p c : Z) :
  limit_reached limit p = true -> 0 <= c -> processed_after limit p c = p.
Proof.
  unfold limit_reached, processed_after. destruct limit as [l |]; [| discriminate].
  destruct (l =? 0); cbn [negb andb]; [discriminate |]. intros H Hc. apply Z.leb_le in H. lia.
Qed.

Lemma processed_after_step (limit : option Z) (p c : Z) :
  limit_reached limit p = false -> 0 <= c ->
  processed_after limit (p + 1) c = processed_after limit p (1 + c).
Proof.
  unfold limit_reached, processed_after. destruct limit as [l |]; [| lia].
  destruct (l =? 0); cbn [negb andb]; [lia |]. intros H Hc. apply Z.leb_gt in H. lia.
Qed.

Lemma processed_after_add (limit : option Z) (p c1 c2 : Z) :
  0 <= c1 -> 0 <= c2 ->
  processed_after limit (processed_after limit p c1) c2 = processed_after limit p (c1 + c2).
Proof.
  unfold processed_after. destruct limit as [l |]; [destruct (l =? 0) |]; cbv iota; lia.
Qed.

(** From [st] to [st']: the counters only grow, and every card skipped or
    added has been counted as processed. *)
Definition counted (st st' : Locals) : Prop :=
  total_skipped st <= total_skipped st' /\
  total_added st <= total_added st' /\
  (total_skipped st' - total_skipped st) + (total_added st' - total_added st)
    <= total_processed st' - total_processed st.

Section LimitFacts.

Context {L : ImageHashLib}.
Variable tcgdex : Tcgdex.

(** The number of cards in the listings of [sets]. *)
Definition listed_cards (sets : list SetInfo) : Z :=
  fold_right
    (fun s acc =>
       match get_cards_from_set tcgdex (set_id s) with
       | Ok cards => Z.of_nat (length cards)
       | Raise _ => 0
       end + acc)
    0 sets.

(** The sets that a run visits: newest first, from [start_from]. *)
Definition sets_to_process (start_from : Z) : list SetInfo :=
  match get_all_sets tcgdex with
  | Ok all_sets => slice_from start_from (sorted_newest_first all_sets)
  | Raise _ => []
  end.

Lemma listed_cards_nonneg (sets : list SetInfo) : 0 <= listed_cards sets.
Proof.
  induction sets as [| s sets IH]; simpl; [lia |].
  destruct (get_cards_from_set tcgdex (set_id s)); lia.
Qed.

Lemma cards_loop_cons (batch_size : Z) (limit : option Z) (card : Card) (rest : list Card)
    (st : Locals) :
  cards_loop tcgdex batch_size limit (card :: rest) st =
  if limit_reached limit (total_processed st) then ret st
  else
    if existsb (String.eqb (c_id card)) (existing_ids (count_processed st))
    then cards_loop tcgdex batch_size limit rest (count_skipped (count_processed st))
    else
      match card_image_url card with
      | None => cards_loop tcgdex batch_size limit rest (count_processed st)
      | Some image_url =>
          bind (lift (compute_hashes_for_image tcgdex image_url)) (fun fetched =>
          bind (if batch_size <=?
                     Z.of_nat (length (new_hashes
                       match fst fetched with
                       | Some hashes => append_hashes (c_id card) hashes (count_processed st)
                       | None => count_processed st
                       end))
                then save_batch
                       match fst fetched with
                       | Some hashes => append_hashes (c_id card) hashes (count_processed st)
                       | None => count_processed st
                       end
                else ret
                       match fst fetched with
                       | Some hashes => append_hashes (c_id card) hashes (count_processed st)
                       | None => count_processed st
                       end)
               (fun st2 => cards_loop tcgdex batch_size limit rest st2))
      end.
Proof. reflexivity. Qed.

Lemma cards_loop_counters (batch_size : Z) (limit : option Z) (cards : list Card) :
  forall (st st' : Locals) (files files' : Files),
    cards_loop tcgdex batch_size limit cards st files = (Ok st', files') ->
    total_processed st'
      = processed_after limit (total_processed st) (Z.of_nat (length cards)) /\
    counted st st'.
Proof.
  induction cards as [| card rest IH]; intros st st' files files' H.
  - simpl in H. unfold ret in H. injection H as <- _.
    rewrite processed_after_0. unfold counted. lia.
  - rewrite cards_loop_cons in H.
    assert (Hlen : 0 <= Z.of_nat (length rest)) by lia.
    replace (Z.of_nat (length (card :: rest))) with (1 + Z.of_nat (length rest))
      by (simpl length; lia).
    destruct (limit_reached limit (total_processed st)) eqn:Hlim.
    { unfold ret in H. injection H as <- _.
      rewrite processed_after_reached by (assumption || lia). unfold counted. lia. }
    rewrite <- (processed_after_step _ _ _ Hlim Hlen).
    destruct (existsb _ _).
    { apply IH in H. unfold counted, count_skipped, count_processed in *. simpl in H. lia. }
    destruct (card_image_url card) as [image_url |].
    2: { apply IH in H. unfold counted, count_processed in *. simpl in H. lia. }
    unfold bind, lift in H.
    destruct (compute_hashes_for_image tcgdex image_url) as [fetched | e]; [| discriminate H].
    destruct (fst fetched) as [hashes |];
      destruct (batch_size <=? _); unfold save_batch, write_pickle, bind, ret in H;
      apply IH in H; unfold counted, append_hashes, count_processed in *; simpl in H; lia.
Qed.

Lemma sets_loop_counters (batch_size : Z) (limit : option Z) (sets : list SetInfo) :
  forall (st st' : Locals) (files files' : Files),
    sets_loop tcgdex batch_size limit sets st files = (Ok st', files') ->
    total_processed st' = processed_after limit (total_processed st) (listed_cards sets) /\
    counted st st'.
Proof.
  induction sets as [| s rest IH]; intros st st' files files' H; simpl in H.
  - unfold ret in H. injection H as <- _.
    simpl. rewrite processed_after_0. unfold counted. lia.
  - unfold bind, lift in H. simpl listed_cards.
    destruct (get_cards_from_set tcgdex (set_id s)) as [cards | e]; [| discriminate H].
    destruct (cards_loop tcgdex batch_size limit cards st files) as [[st1 | e] files1] eqn:Hc;
      [| discriminate H].
    apply cards_loop_counters in Hc. destruct Hc as [Hp Hcnt].
    pose proof (listed_cards_nonneg rest) as Hrest.
    rewrite <- processed_after_add by lia. rewrite <- Hp.
    destruct (limit_reached limit (total_processed st1)) eqn:Hlim.
    + unfold ret in H. injection H as <- _.
      rewrite processed_after_reached by assumption. tauto.
    + apply IH in H. destruct H as [Hp' Hcnt']. split; [exact Hp' |].
      unfold counted in *. lia.
Qed.

(** A limit of 0 is no limit. *)
Lemma cards_loop_limit_0 (batch_size : Z) (cards : list Card) :
  forall (st : Locals) (files : Files),
    cards_loop tcgdex batch_size (Some 0) cards st files
    = cards_loop tcgdex batch_size None cards st files.
Proof.
  induction cards as [| card rest IH]; intros st files; [reflexivity |].
  rewrite !cards_loop_cons.
  change (limit_reached (Some 0) (total_processed st)) with false.
  change (limit_reached None (total_processed st)) with false. cbv iota.
  destruct (existsb _ _); [apply IH |].
  destruct (card_image_url card) as [image_url |]; [| apply IH].
  unfold bind.
  destruct (lift (compute_hashes_for_image tcgdex image_url) files) as [[fetched | e] files1];
    [| reflexivity].
  match goal with
  | |- context [(if ?c then save_batch ?a else ret ?b) files1] =>
      destruct ((if c then save_batch a else ret b) files1) as [[st2 | e] files2]
  end; [apply IH | reflexivity].
Qed.

Lemma sets_loop_limit_0 (batch_size : Z) (sets : list SetInfo) :
  forall (st : Locals) (files : Files),
    sets_loop tcgdex batch_size (Some 0) sets st files
    = sets_loop tcgdex batch_size None sets st files.
Proof.
  induction sets as [| s rest IH]; intros st files; [reflexivity |].
  simpl. unfold bind.
  destruct (lift (get_cards_from_set tcgdex (set_id s)) files) as [[cards | e] files1];
    [| reflexivity].
  rewrite cards_loop_limit_0.
  destruct (cards_loop tcgdex batch_size None cards st files1) as [[st1 | e] files2];
    [apply IH | reflexivity].
Qed.

Lemma update_hash_database_limit_0 (batch_size start_from : Z) (files : Files) :
  update_hash_database tcgdex batch_size start_from (Some 0) files
  = update_hash_database tcgdex batch_size start_from None files.
Proof.
  unfold update_hash_database, bind, get.
  destruct (lift (get_all_sets tcgdex) files) as [[all_sets | e] files1]; [| reflexivity].
  destruct all_sets as [| s all_sets]; [reflexivity |].
  rewrite sets_loop_limit_0. reflexivity.
Qed.

Lemma update_hash_database_counters
    (batch_size start_from : Z) (limit : option Z) (files files' : Files) (stats : Stats) :
  update_hash_database tcgdex batch_size start_from limit files = (Ok (Some stats), files') ->
  st_processed stats = processed_after limit 0 (listed_cards (sets_to_process start_from)) /\
  0 <= st_skipped stats /\ 0 <= st_added stats /\
  st_skipped stats + st_added stats <= st_processed stats.
Proof.
  unfold update_hash_database, sets_to_process, bind, get, lift.
  destruct (get_all_sets tcgdex) as [all_sets | e]; [| discriminate].
  destruct all_sets as [| s all_sets]; [discriminate |].
  match goal with
  | |- context [sets_loop tcgdex batch_size limit ?sets ?st0 files] =>
      destruct (sets_loop tcgdex batch_size limit sets st0 files) as [[st | e] files1] eqn:Hloop
  end; [| discriminate].
  apply sets_loop_counters in Hloop. destruct Hloop as [Hp Hcnt].
  unfold counted in Hcnt.
  cbn [total_processed total_skipped total_added] in Hp, Hcnt.
  intros H.
  assert (Hstats : st_processed stats = total_processed st /\
                   st_added stats = total_added st /\
                   st_skipped stats = total_skipped st).
  { destruct (new_hashes st); unfold write_pickle, write_csv, ret in H; simpl in H;
      destruct (card_hashes_32b_pickle files1); simpl in H;
      injection H as <- _; simpl; auto. }
  destruct Hstats as (-> & -> & ->). lia.
Qed.

(** C10, amended: a limit of 0 runs exactly as no limit.  A run that returns
    has processed every listed card when the limit is absent or 0, the first
    [l] of them (all, when there are fewer) when the limit is [l > 0], and
    none when it is negative; the listed cards are counted whether or not
    they are already present, and every skipped or added card is one of the
    processed ones. *)
Theorem limit_bounds_processed_cards
    (batch_size start_from : Z) (limit : option Z) (files files' : Files) (stats : Stats) :
  update_hash_database tcgdex batch_size start_from limit files = (Ok (Some stats), files') ->
  let listed := listed_cards (sets_to_process start_from) in
  update_hash_database tcgdex batch_size start_from (Some 0) files
    = update_hash_database tcgdex batch_size start_from None files /\
  match limit with
  | None => st_processed stats = listed
  | Some l =>
      (l = 0 -> st_processed stats = listed) /\
      (0 < l -> st_processed stats = Z.min l listed) /\
      (l < 0 -> st_processed stats = 0)
  end /\
  0 <= st_skipped stats /\ 0 <= st_added stats /\
  st_skipped stats + st_added stats <= st_processed stats.
Proof.
  intros H listed.
  split; [apply update_hash_database_limit_0 |].
  apply update_hash_database_counters in H. fold listed in H.
  destruct H as [Hp Hrest]. split; [| exact Hrest].
  pose proof (listed_cards_nonneg (sets_to_process start_from)) as Hn. fold listed in Hn.
  unfold processed_after in Hp. destruct limit as [l |]; [| lia].
  destruct (Z.eqb_spec l 0); lia.
Qed.

End LimitFacts.

(** The catalog on disk already holds the first two of the four cards. *)
Definition two_cards_present : Files :=
  {| card_hashes_32b_pickle :=
       Some {| rows := [bitmap_row "sv01-1" "1100"; bitmap_row "sv01-2" "1100"];
               distance := None |};
     card_hashes_32b_csv := None |}.

(** C10, as stated, fails: a limit of -1 is not strictly positive and yet it
    bounds the run, which stops before the first of the four cards. *)
Lemma negative_limit_bounds_the_run :
  fst (main (L := bitmap_lib) uninterrupted (Some (-1)) 0 no_files)
  = Finished (Some {| st_processed := 0; st_added := 0; st_skipped := 0;
                      st_database_total := 0 |}) /\
  fst (main (L := bitmap_lib) uninterrupted None 0 no_files)
  = Finished (Some {| st_processed := 4; st_added := 4; st_skipped := 0;
                      st_database_total := 4 |}) /\
  fst (main (L := bitmap_lib) uninterrupted (Some (-1)) 0 no_files)
  <> fst (main (L := bitmap_lib) uninterrupted None 0 no_files).
Proof. vm_compute. repeat split; try reflexivity. discriminate. Qed.

(** With a limit of 3 and two of the four cards already present, the run
    stops after two skips and one addition. *)
Lemma limit_bounds_processed_cards_witness :
  let stats := {| st_processed := 3; st_added := 1; st_skipped := 2;
                  st_database_total := 3 |} in
  let listed := listed_cards uninterrupted (sets_to_process uninterrupted 0) in
  update_hash_database (L := bitmap_lib) uninterrupted 50 0 (Some 0) two_cards_present
    = update_hash_database (L := bitmap_lib) uninterrupted 50 0 None two_cards_present /\
  ((3 = 0 -> st_processed stats = listed) /\
   (0 < 3 -> st_processed stats = Z.min 3 listed) /\
   (3 < 0 -> st_processed stats = 0)) /\
  0 <= st_skipped stats /\ 0 <= st_added stats /\
  st_skipped stats + st_added stats <= st_processed stats.
Proof.
  apply (limit_bounds_processed_cards (L := bitmap_lib) uninterrupted 50 0 (Some 3)
           two_cards_present
           (snd (update_hash_database (L := bitmap_lib) uninterrupted 50 0 (Some 3)
                   two_cards_present))).
  vm_compute. reflexivity.
Defined.

(** ** The shape of the catalog *)

Section ShapeFacts.

Context {L : ImageHashLib}.

(** Every record that [add_card] appends has the sizes of [get_hashes]. *)
Lemma add_card_keeps_well_shaped (data : option Json) (s : Store) :
  well_shaped (card_hashes s) ->
  well_shaped (card_hashes (snd (add_card data s))).
Proof.
  intros Hws. unfold add_card. rewrite handler_state.
  destruct data as [[[b64 |] ht tn th [cid |]] |]; try exact Hws.
  unfold bind, get.
  destruct (existsb (String.eqb cid) (map id (rows (card_hashes s)))); [exact Hws |].
  rewrite decode_image_run.
  destruct (result_bind (b64decode b64) Image_open) as [img |]; [| exact Hws].
  simpl. unfold well_shaped in *. simpl. apply Forall_app. split; [exact Hws |].
  constructor; [apply get_hashes_well_shaped | constructor].
Qed.

(** Every hash set that the builder computes has the sizes of [get_hashes]. *)
Lemma compute_hashes_for_image_well_shaped
    (tcgdex : Tcgdex) (image_url : string) (hashes : Hashes) (error : option string) :
  compute_hashes_for_image tcgdex image_url = Ok (Some hashes, error) ->
  well_shaped_hashes hashes.
Proof.
  intros H. apply compute_hashes_for_image_is_get_hashes in H.
  destruct H as [img ->]. apply get_hashes_well_shaped.
Qed.

End ShapeFacts.

(** * More of the code *)

(** ** get_most_similar: what the results are *)

Lemma result_map_list_raise {A B} (f : A -> result B) (e : exn) (l : list A) :
  Forall (fun x => f x = Raise e \/ exists y, f x = Ok y) l ->
  Exists (fun x => f x = Raise e) l ->
  result_map_list f l = Raise e.
Proof.
  induction 1 as [| x l Hx Hl IH]; intros Hex; [inversion Hex |].
  simpl. destruct Hx as [Hx | [y Hy]].
  - rewrite Hx. reflexivity.
  - rewrite Hy. simpl. inversion Hex as [? ? Hbad | ? ? Hbad]; subst; [congruence |].
    rewrite (IH Hbad). reflexivity.
Qed.


Lemma nsmallest_head_is_least (n : Z) (values : list Z) (p : nat * Z) (rest : list (nat * Z)) :
  nsmallest n values = p :: rest -> Forall (fun d => snd p <= d) values.
Proof.
  unfold nsmallest. destruct (n <=? 0); [discriminate |]. intros H.
  pose proof (sort_values_enumerate_sorted values) as Hs.
  pose proof (sort_values_perm (enumerate values)) as Hp.
  destruct (sort_values (enumerate values)) as [| q sorted]; [destruct (Z.to_nat n); discriminate |].
  destruct (Z.to_nat n) as [| k]; [discriminate |]. simpl in H. injection H as <- _.
  apply StronglySorted_inv in Hs. destruct Hs as [_ Hq].
  rewrite Forall_forall in *. intros d Hd.
  apply In_nth_error in Hd. destruct Hd as [i Hi].
  apply (proj2 (in_enumerate values i d)) in Hi.
  apply (Permutation_in _ (Permutation_sym Hp)) in Hi.
  destruct Hi as [Heq | Hi]; [rewrite Heq; simpl; lia |].
  specialize (Hq _ Hi). unfold lex_lt in Hq. simpl in Hq. lia.
Qed.

Section MatchResults.

Context {L : ImageHashLib}.

(** X1: every result of [get_most_similar] is a record of the catalog, with
    its id and its Hamming distance to the query, between 0 and 1024. *)
Theorem get_most_similar_results_are_catalog_records
    (df : DataFrame) (img : Image) (hash_type : string) (n : Z) :
  In hash_type recognized_hash_types ->
  well_shaped df ->
  exists results,
    fst (get_most_similar img hash_type n df) = Ok results /\
    Forall (fun m =>
              exists r : CardRow,
                In r (rows df) /\ id r = m_id m /\
                m_distance m = count_nonzero_ne (hash_of_type hash_type r)
                                 (hash_of_type hash_type (get_hashes img)) /\
                0 <= m_distance m <= 1024)
           results.
Proof.
  intros Hin Hdf. rewrite (get_most_similar_run df img hash_type n Hin Hdf). simpl fst.
  eexists. split; [reflexivity |].
  rewrite !Forall_map, Forall_forall. intros p Hp.
  apply nsmallest_in in Hp. unfold match_of; simpl.
  rewrite (nth_error_nth _ _ 0 Hp).
  assert (Hd : In (snd p) (distances df img hash_type)) by (eapply nth_error_In; exact Hp).
  unfold distances in Hp. rewrite nth_error_map in Hp.
  destruct (nth_error (rows df) (fst p)) as [r |] eqn:Hr; [| discriminate].
  simpl in Hp. injection Hp as Hp.
  exists r. split; [eapply nth_error_In; exact Hr |].
  split; [| split; [symmetry; exact Hp | eapply distances_bounds; exact Hd]].
  symmetry. apply nth_error_nth. rewrite nth_error_map, Hr. reflexivity.
Qed.

(** X2: on a non-empty catalog and for [n >= 1], the first result is at the
    least distance of the whole catalog. *)
Theorem get_most_similar_best_is_nearest
    (df : DataFrame) (img : Image) (hash_type : string) (n : Z) :
  In hash_type recognized_hash_types ->
  well_shaped df ->
  rows df <> [] ->
  0 < n ->
  exists best rest,
    fst (get_most_similar img hash_type n df) = Ok (best :: rest) /\
    Forall (fun d => m_distance best <= d) (distances df img hash_type).
Proof.
  intros Hin Hdf Hrows Hn.
  rewrite (get_most_similar_run df img hash_type n Hin Hdf). simpl fst.
  set (dist := distances df img hash_type).
  destruct (nsmallest n dist) as [| p ps] eqn:Hns.
  - exfalso. pose proof (nsmallest_length n dist) as Hlen. rewrite Hns in Hlen.
    unfold dist in Hlen. rewrite distances_length in Hlen.
    destruct (rows df); [congruence | simpl in Hlen; lia].
  - simpl. eexists. eexists. split; [reflexivity |].
    unfold match_of; simpl.
    assert (Hp : nth_error dist (fst p) = Some (snd p))
      by (apply (nsmallest_in n); rewrite Hns; left; reflexivity).
    rewrite (nth_error_nth _ _ 0 Hp).
    eapply nsmallest_head_is_least; exact Hns.
Qed.

(** X4: one catalog record whose fingerprint of the requested type has
    another size than the query's makes the whole call raise the [TypeError]
    of pandas, which stands for the one of [ImageHash.__sub__], before the
    frame is written. *)
Theorem get_most_similar_rejects_other_sizes
    (df : DataFrame) (img : Image) (hash_type : string) (n : Z) :
  In hash_type recognized_hash_types ->
  Exists (fun r : CardRow =>
            length (hash_of_type hash_type r)
            <> length (hash_of_type hash_type (get_hashes img)))
         (rows df) ->
  get_most_similar img hash_type n df
  = (Raise (TypeError
       "Cannot broadcast np.ndarray with operand of type <class 'imagehash.ImageHash'>"),
     df).
Proof.
  intros Hin Hex. change (TypeError _) with (TypeError broadcast_message).
  assert (Hsub : forall proj : Hashes -> ImageHash,
            (forall h, hash_of_type hash_type h = proj h) ->
            result_map_list (fun x => ImageHash_sub x (proj (get_hashes img)))
              (map (fun r : CardRow => proj r) (rows df))
            = Raise (TypeError "ImageHashes must be of the same shape.")).
  { intros proj Hproj. apply result_map_list_raise.
    - rewrite Forall_forall. intros x _. unfold ImageHash_sub.
      destruct (Nat.eqb _ _); [right; eexists; reflexivity | left; reflexivity].
    - rewrite Exists_exists in *. destruct Hex as [r [Hr Hne]].
      exists (proj r). split; [apply in_map_iff; exists r; auto |].
      apply ImageHash_sub_other_size. rewrite <- !Hproj. exact Hne. }
  unfold get_most_similar, bind, get, lift, put, ret.
  simpl in Hin.
  destruct Hin as [<- | [<- | [<- | [<- | []]]]];
    cbn [DataFrame_getitem Hashes_getitem String.eqb Ascii.eqb Bool.eqb];
    cbn [Series_sub]; rewrite Hsub by reflexivity; reflexivity.
Qed.

End MatchResults.

(** ** Hashes as hexadecimal strings *)

Lemma hex_of_bits_length (k : nat) :
  forall bits : list bool, length bits = (4 * k)%nat -> String.length (hex_of_bits bits) = k.
Proof.
  induction k as [| k IH]; intros bits H.
  - destruct bits; [reflexivity | discriminate].
  - destruct bits as [| b3 [| b2 [| b1 [| b0 rest]]]]; simpl in H; try lia.
    simpl. f_equal. apply IH. lia.
Qed.

Lemma ImageHash_str_length (h : ImageHash) (bits pad digits : nat) :
  length h = bits ->
  ((4 - bits mod 4) mod 4 = pad)%nat ->
  (pad + bits = 4 * digits)%nat ->
  String.length (ImageHash_str h) = digits.
Proof.
  intros Hlen Hpad Hsum. unfold ImageHash_str. rewrite Hlen, Hpad.
  apply hex_of_bits_length. rewrite length_app, repeat_length. lia.
Qed.

Lemma count_nonzero_ne_refl (a : ImageHash) : count_nonzero_ne a a = 0.
Proof. induction a as [| x a IH]; simpl; [| rewrite xorb_nilpotent, IH]; reflexivity. Qed.

Lemma count_nonzero_ne_zero (a b : ImageHash) :
  length a = length b -> count_nonzero_ne a b = 0 -> a = b.
Proof.
  revert b. induction a as [| x a IH]; intros [| y b] Hlen H; simpl in *; try discriminate.
  - reflexivity.
  - pose proof (count_nonzero_ne_bounds a b) as Hb.
    destruct (xorb x y) eqn:Hxy; [lia |].
    apply xorb_eq in Hxy. subst y. f_equal. apply IH; lia.
Qed.

(** ** The handlers of api.py *)

(** Lines 330-384 of [recognize_card]: the answer for a list of matches. *)
Definition recognize_answer {L : ImageHashLib} (threshold : Z) (matches : list Match)
  : Response RecognizeBody :=
  match matches with
  | [] => Failure 404 "No matches found" None
  | best_match :: _ =>
      if threshold <? m_distance best_match
      then Failure 404
             ("No good match found (best distance: "
                ++ str_int (m_distance best_match) ++ ")")%string
             (Some best_match)
      else Success {| cardId := m_id best_match;
                      cardName := capitalize (nth 0 (split "-" (m_id best_match)) "");
                      res_confidence := round1 (confidence (m_distance best_match));
                      method := "image-hash";
                      res_distance := m_distance best_match;
                      imageUrl := image_url (m_id best_match);
                      res_matches := firstn 5 matches |}
  end.

Section HandlerFacts.

Context {L : ImageHashLib}.

Lemma handler_catches {A} (c : M Store (Response A)) (s : Store) (e : exn) :
  fst (handler c s) = Raise e -> e = KeyboardInterrupt.
Proof.
  unfold handler, try_except, ret. destruct (c s) as [[a | e'] s']; simpl; [discriminate |].
  destruct e'; simpl; intros H; try discriminate H. injection H as <-. reflexivity.
Qed.

Lemma add_card_run (s : Store) (d : Json) (b64 cid : string) (img : Image) :
  image d = Some b64 ->
  card_id d = Some cid ->
  ~ In cid (map id (rows (card_hashes s))) ->
  result_bind (b64decode b64) Image_open = Ok img ->
  let df := concat (card_hashes s) [{| id := cid; row_hashes := get_hashes img |}] in
  add_card (Some d) s
  = (Ok (Success {| ac_card_id := cid;
                    ac_hashes := str_hashes (get_hashes img);
                    ac_total_cards := length (rows df) |}),
     {| card_hashes := df; pickle_file := Some df |}).
Proof.
  intros Himg Hcid Hnew Hdec df.
  destruct d as [im ht tn th ci]; simpl in Himg, Hcid; subst im ci.
  assert (Hno : existsb (String.eqb cid) (map id (rows (card_hashes s))) = false).
  { destruct (existsb _ _) eqn:E; [| reflexivity]. apply existsb_eqb_In in E. contradiction. }
  unfold add_card, handler, try_except, bind, get, put, to_pickle, ret.
  rewrite Hno, decode_image_run, Hdec. reflexivity.
Qed.

Lemma recognize_card_run (s : Store) (q : Json) (b64 : string) (img : Image) :
  image q = Some b64 ->
  result_bind (b64decode b64) Image_open = Ok img ->
  In (get_default (hash_type q) "perceptual") recognized_hash_types ->
  well_shaped (card_hashes s) ->
  let dist := distances (card_hashes s) img (get_default (hash_type q) "perceptual") in
  recognize_card (Some q) s
  = (Ok (recognize_answer (get_default (threshold q) 30)
           (map (match_of (card_hashes s) dist) (map fst (nsmallest 10 dist)))),
     {| card_hashes := set_distance (card_hashes s) dist; pickle_file := pickle_file s |}).
Proof.
  intros Himg Hdec Hty Hws.
  destruct q as [im ht tn th ci]; cbn [image hash_type threshold] in *; subst im.
  set (dist := distances (card_hashes s) img (get_default ht "perceptual")).
  unfold recognize_card, handler, try_except, bind, on_card_hashes.
  rewrite decode_image_run, Hdec.
  rewrite (get_most_similar_run _ img _ 10 Hty Hws). fold dist.
  unfold recognize_answer, ret.
  destruct (map (match_of (card_hashes s) dist) (map fst (nsmallest 10 dist))) as [| best ms];
    [reflexivity |].
  destruct (get_default th 30 <? m_distance best); reflexivity.
Qed.

(** The head of the ranked matches: a distance of the catalog, the least. *)
Lemma ranked_matches_head (df : DataFrame) (dist : list Z) (n : Z) :
  match map (match_of df dist) (map fst (nsmallest n dist)) with
  | [] => n <= 0 \/ dist = []
  | best :: _ => In (m_distance best) dist /\ Forall (fun d => m_distance best <= d) dist
  end.
Proof.
  destruct (nsmallest n dist) as [| p ps] eqn:Hns; simpl.
  - pose proof (nsmallest_length n dist) as Hlen. rewrite Hns in Hlen. simpl in Hlen.
    destruct dist; [right; reflexivity | left; simpl in Hlen; lia].
  - assert (Hp : nth_error dist (fst p) = Some (snd p))
      by (apply (nsmallest_in n); rewrite Hns; left; reflexivity).
    rewrite (nth_error_nth _ _ 0 Hp). split.
    + eapply nth_error_In; exact Hp.
    + eapply nsmallest_head_is_least; exact Hns.
Qed.

(** The record behind the head of the ranked matches. *)
Lemma ranked_matches_head_record
    (df : DataFrame) (img : Image) (hash_type : string) (n : Z) (best : Match)
    (ms : list Match) :
  map (match_of df (distances df img hash_type))
      (map fst (nsmallest n (distances df img hash_type))) = best :: ms ->
  exists r : CardRow,
    In r (rows df) /\ id r = m_id best /\
    m_distance best = count_nonzero_ne (hash_of_type hash_type r)
                        (hash_of_type hash_type (get_hashes img)).
Proof.
  destruct (nsmallest n (distances df img hash_type)) as [| p ps] eqn:Hns; [discriminate |].
  simpl. intros H. injection H as <- _.
  assert (Hp : nth_error (distances df img hash_type) (fst p) = Some (snd p))
    by (apply (nsmallest_in n); rewrite Hns; left; reflexivity).
  unfold match_of; simpl. rewrite (nth_error_nth _ _ 0 Hp).
  unfold distances in Hp. rewrite nth_error_map in Hp.
  destruct (nth_error (rows df) (fst p)) as [r |] eqn:Hr; [| discriminate].
  simpl in Hp. injection Hp as Hp.
  exists r. split; [eapply nth_error_In; exact Hr |].
  split; [| symmetry; exact Hp].
  symmetry. apply nth_error_nth. rewrite nth_error_map, Hr. reflexivity.
Qed.

(** X5: after a card is added, a second [add_card] with the same id is
    refused with status 400 and changes nothing; the catalog holds the id
    once, has one record more, and the pickle file is the catalog. *)
Theorem add_card_twice_conflicts
    (s : Store) (d d' : Json) (b64 b64' cid : string) (img : Image) :
  image d = Some b64 ->
  card_id d = Some cid ->
  ~ In cid (map id (rows (card_hashes s))) ->
  result_bind (b64decode b64) Image_open = Ok img ->
  image d' = Some b64' ->
  card_id d' = Some cid ->
  let s1 := snd (add_card (Some d) s) in
  add_card (Some d') s1
    = (Ok (Failure 400 ("Card " ++ cid ++ " already exists in database")%string None), s1) /\
  count_occ string_dec (map id (rows (card_hashes s1))) cid = 1%nat /\
  health s1 = S (health s) /\
  pickle_file s1 = Some (card_hashes s1).
Proof.
  intros Himg Hcid Hnew Hdec Himg' Hcid' s1.
  unfold s1. rewrite (add_card_run s d b64 cid img Himg Hcid Hnew Hdec). simpl snd.
  split; [| split; [| split]].
  - apply (add_card_conflict _ d' b64' cid Himg' Hcid').
    simpl. rewrite map_app. apply in_or_app. right. left. reflexivity.
  - simpl. rewrite map_app, count_occ_app. simpl.
    rewrite (proj1 (count_occ_not_In string_dec _ _) Hnew).
    destruct (string_dec cid cid); [reflexivity | congruence].
  - unfold health. simpl. rewrite length_app. simpl. lia.
  - reflexivity.
Qed.

(** X6: once a card is added, recognizing the same image succeeds for every
    recognized hash type and every threshold [>= 0], with distance 0 and
    confidence 100; the card named is a record whose fingerprint of that type
    is the query's. *)
Theorem add_card_then_recognize
    (s : Store) (d q : Json) (b64 cid : string) (img : Image) :
  well_shaped (card_hashes s) ->
  image d = Some b64 ->
  card_id d = Some cid ->
  ~ In cid (map id (rows (card_hashes s))) ->
  result_bind (b64decode b64) Image_open = Ok img ->
  image q = Some b64 ->
  In (get_default (hash_type q) "perceptual") recognized_hash_types ->
  0 <= get_default (threshold q) 30 ->
  let s1 := snd (add_card (Some d) s) in
  exists body,
    fst (recognize_card (Some q) s1) = Ok (Success body) /\
    res_distance body = 0 /\
    res_confidence body = Int 100 /\
    exists r : CardRow,
      In r (rows (card_hashes s1)) /\ id r = cardId body /\
      hash_of_type (get_default (hash_type q) "perceptual") r
      = hash_of_type (get_default (hash_type q) "perceptual") (get_hashes img).
Proof.
  intros Hws Himg Hcid Hnew Hdec Hq Hty Hth s1.
  set (ht := get_default (hash_type q) "perceptual") in *.
  assert (Hws1 : well_shaped (card_hashes s1)) by (apply add_card_keeps_well_shaped, Hws).
  assert (Hrow : In {| id := cid; row_hashes := get_hashes img |} (rows (card_hashes s1))).
  { unfold s1. rewrite (add_card_run s d b64 cid img Himg Hcid Hnew Hdec). simpl.
    apply in_or_app. right. left. reflexivity. }
  rewrite (recognize_card_run s1 q b64 img Hq Hdec Hty Hws1). simpl fst. fold ht.
  set (dist := distances (card_hashes s1) img ht).
  assert (H0 : In 0 dist).
  { unfold dist, distances. apply in_map_iff.
    exists {| id := cid; row_hashes := get_hashes img |}. split; [| exact Hrow].
    simpl. apply count_nonzero_ne_refl. }
  pose proof (ranked_matches_head (card_hashes s1) dist 10) as Hhead.
  pose proof (ranked_matches_head_record (card_hashes s1) img ht 10) as Hrec.
  fold dist in Hrec.
  destruct (map (match_of (card_hashes s1) dist) (map fst (nsmallest 10 dist)))
    as [| best ms].
  { destruct Hhead as [Hn | Hd]; [lia | rewrite Hd in H0; contradiction]. }
  destruct Hhead as [Hin Hleast].
  destruct (Hrec best ms eq_refl) as [r (Hr & Hid & Hd)].
  rewrite Forall_forall in Hleast. specialize (Hleast 0 H0).
  assert (Hpos : 0 <= m_distance best).
  { rewrite Hd. apply count_nonzero_ne_bounds. }
  assert (Hzero : m_distance best = 0) by lia.
  unfold recognize_answer. destruct (Z.ltb_spec (get_default (threshold q) 30) (m_distance best));
    [lia |].
  eexists. split; [reflexivity |]. simpl. rewrite Hzero.
  split; [reflexivity |]. split; [vm_compute; reflexivity |].
  exists r. split; [exact Hr |]. split; [exact Hid |].
  apply count_nonzero_ne_zero; [| congruence].
  apply hash_of_type_same_size; [| apply get_hashes_well_shaped].
  unfold well_shaped in Hws1. rewrite Forall_forall in Hws1. apply Hws1, Hr.
Qed.

(** X7: [recognize_card] succeeds exactly when the nearest record is within
    the threshold.  A success reports the least distance of the catalog, at
    most the threshold, with at most five matches headed by the card named; a
    failure has status 404 and every record is farther than the threshold,
    with the nearest one attached, or none when the catalog is empty. *)
Theorem recognize_card_within_threshold
    (s : Store) (q : Json) (b64 : string) (img : Image) :
  image q = Some b64 ->
  result_bind (b64decode b64) Image_open = Ok img ->
  In (get_default (hash_type q) "perceptual") recognized_hash_types ->
  well_shaped (card_hashes s) ->
  let dist := distances (card_hashes s) img (get_default (hash_type q) "perceptual") in
  let limit := get_default (threshold q) 30 in
  match fst (recognize_card (Some q) s) with
  | Ok (Success body) =>
      In (res_distance body) dist /\
      res_distance body <= limit /\
      Forall (fun d => res_distance body <= d) dist /\
      (length (res_matches body) <= 5)%nat /\
      exists rest,
        res_matches body
        = {| m_id := cardId body; m_distance := res_distance body |} :: rest
  | Ok (Failure status _ best_match) =>
      status = 404 /\
      Forall (fun d => limit < d) dist /\
      match best_match with
      | Some best => In (m_distance best) dist /\ Forall (fun d => m_distance best <= d) dist
      | None => rows (card_hashes s) = []
      end
  | Raise _ => False
  end.
Proof.
  intros Himg Hdec Hty Hws dist limit.
  rewrite (recognize_card_run s q b64 img Himg Hdec Hty Hws). simpl fst.
  fold dist limit.
  pose proof (ranked_matches_head (card_hashes s) dist 10) as Hhead.
  unfold recognize_answer.
  destruct (map (match_of (card_hashes s) dist) (map fst (nsmallest 10 dist)))
    as [| best ms].
  - destruct Hhead as [Hn | Hd]; [lia |].
    split; [reflexivity |]. rewrite Hd. split; [constructor |].
    apply length_zero_iff_nil. rewrite <- (distances_length _ img
      (get_default (hash_type q) "perceptual")). fold dist. rewrite Hd. reflexivity.
  - destruct Hhead as [Hin Hleast].
    destruct (Z.ltb_spec limit (m_distance best)) as [Hfar | Hnear].
    + split; [reflexivity |]. split; [| split; assumption].
      rewrite Forall_forall in *. intros d Hd. specialize (Hleast d Hd). lia.
    + cbn [res_distance res_matches cardId].
      split; [exact Hin |]. split; [exact Hnear |]. split; [exact Hleast |].
      split; [rewrite length_firstn; lia |].
      exists (firstn 4 ms). destruct best. reflexivity.
Qed.

(** X8: the confidence of a success is [round(max(50, min(100, 100 - d/3)), 1)]
    at the reported distance [d], which lies between 0 and 1024; numerically
    it is the clamped formula rounded to one decimal, between 50 and 100. *)
Theorem recognize_card_confidence
    (s : Store) (q : Json) (b64 : string) (img : Image) :
  image q = Some b64 ->
  result_bind (b64decode b64) Image_open = Ok img ->
  In (get_default (hash_type q) "perceptual") recognized_hash_types ->
  well_shaped (card_hashes s) ->
  match fst (recognize_card (Some q) s) with
  | Ok (Success body) =>
      0 <= res_distance body <= 1024 /\
      res_confidence body = round1 (confidence (res_distance body)) /\
      number_eqb (res_confidence body)
        (float_of_tenths (clamp_formula_tenths (res_distance body))) = true /\
      500 <= clamp_formula_tenths (res_distance body) <= 1000
  | _ => True
  end.
Proof.
  intros Himg Hdec Hty Hws.
  rewrite (recognize_card_run s q b64 img Himg Hdec Hty Hws). simpl fst.
  set (dist := distances (card_hashes s) img (get_default (hash_type q) "perceptual")).
  pose proof (ranked_matches_head (card_hashes s) dist 10) as Hhead.
  unfold recognize_answer.
  destruct (map (match_of (card_hashes s) dist) (map fst (nsmallest 10 dist)))
    as [| best ms]; [exact I |].
  destruct (get_default (threshold q) 30 <? m_distance best); [exact I |].
  simpl. destruct Hhead as [Hin _].
  apply distances_bounds in Hin.
  split; [exact Hin |]. split; [reflexivity |].
  split; [apply (confidence_follows_formula _ Hin) | apply clamp_formula_tenths_bounds].
Qed.

(** X9: no handler lets an [Exception] out: whatever the request and the
    store, the only exception that can leave is [KeyboardInterrupt], and a
    failure carries status 400 or 500, or 404 from [recognize_card]. *)
Theorem handlers_answer_every_exception (data : option Json) (s : Store) :
  (forall e, fst (match_card data s) = Raise e \/ fst (compute_hash data s) = Raise e \/
             fst (add_card data s) = Raise e \/ fst (recognize_card data s) = Raise e ->
             e = KeyboardInterrupt) /\
  (forall status error best,
     fst (match_card data s) = Ok (Failure status error best) -> status = 400 \/ status = 500) /\
  (forall status error best,
     fst (compute_hash data s) = Ok (Failure status error best) ->
     status = 400 \/ status = 500) /\
  (forall status error best,
     fst (add_card data s) = Ok (Failure status error best) -> status = 400 \/ status = 500) /\
  (forall status error best,
     fst (recognize_card data s) = Ok (Failure status error best) ->
     status = 400 \/ status = 404 \/ status = 500).
Proof.
  split.
  { intros e [H | [H | [H | H]]]; eapply handler_catches; exact H. }
  assert (Hcatch : forall A (c : M Store (Response A)) status error best,
            fst (handler c s) = Ok (Failure status error best) ->
            fst (c s) = Ok (Failure status error best) \/ status = 500).
  { intros A c status error best. unfold handler, try_except, ret.
    destruct (c s) as [[a | e] s']; simpl; [auto |].
    destruct (is_Exception e); simpl; intros H; [| discriminate H].
    injection H as <- _ _. auto. }
  repeat split; intros status error best H; apply Hcatch in H;
    (destruct H as [H | H]; [| auto]);
    destruct data as [[[b64 |] ht tn th [cid |]] |]; simpl in H;
    try (injection H as <- _ _; auto); unfold bind, get in H;
    try rewrite decode_image_run in H;
    try (destruct (existsb _ _); simpl in H; [injection H as <- _ _; auto |];
         rewrite decode_image_run in H);
    destruct (result_bind (b64decode b64) Image_open) as [img |]; try discriminate H;
    simpl in H; try discriminate H.
  all: try (destruct (on_card_hashes _ s) as [[ms | e] s']; simpl in H; try discriminate H).
  all: try (destruct ms as [| best_match ms]; simpl in H; [injection H as <- _ _; auto |];
            destruct (_ <? _); simpl in H; [injection H as <- _ _; auto | discriminate H]).
Qed.

(** X10: [compute_hash] answers an image that decodes with four hexadecimal
    strings of 256, 256, 256 and 11 digits and the card id of the request,
    and leaves the store as it was. *)
Theorem compute_hash_hex_lengths (s : Store) (d : Json) (b64 : string) (img : Image) :
  image d = Some b64 ->
  result_bind (b64decode b64) Image_open = Ok img ->
  exists body,
    compute_hash (Some d) s = (Ok (Success body), s) /\
    ch_card_id body = card_id d /\
    ch_hashes body = str_hashes (get_hashes img) /\
    String.length (perceptual_str (ch_hashes body)) = 256%nat /\
    String.length (difference_str (ch_hashes body)) = 256%nat /\
    String.length (wavelet_str (ch_hashes body)) = 256%nat /\
    String.length (color_str (ch_hashes body)) = 11%nat.
Proof.
  intros Himg Hdec. destruct d as [im ht tn th ci]; simpl in Himg; subst im.
  unfold compute_hash, handler, try_except, bind, ret.
  rewrite decode_image_run, Hdec.
  eexists. split; [reflexivity |]. simpl.
  destruct (get_hashes_well_shaped img) as (H1 & H2 & H3 & H4).
  repeat split.
  - apply (ImageHash_str_length _ 1024 0); [exact H1 | reflexivity | reflexivity].
  - apply (ImageHash_str_length _ 1024 0); [exact H2 | reflexivity | reflexivity].
  - apply (ImageHash_str_length _ 1024 0); [exact H3 | reflexivity | reflexivity].
  - apply (ImageHash_str_length _ 42 2); [exact H4 | reflexivity | reflexivity].
Qed.

(** X11: a card added after a match has written the [distance] column is
    persisted with that column: the pickle file holds the distances of the
    last query and [NaN] for the new record. *)
Theorem add_card_after_match_persists_distance
    (s : Store) (d : Json) (b64 cid : string) (img : Image) (dist : list (option Z)) :
  image d = Some b64 ->
  card_id d = Some cid ->
  ~ In cid (map id (rows (card_hashes s))) ->
  result_bind (b64decode b64) Image_open = Ok img ->
  distance (card_hashes s) = Some dist ->
  exists df,
    pickle_file (snd (add_card (Some d) s)) = Some df /\
    rows df = rows (card_hashes s) ++ [{| id := cid; row_hashes := get_hashes img |}] /\
    distance df = Some (dist ++ [None]).
Proof.
  intros Himg Hcid Hnew Hdec Hdist.
  rewrite (add_card_run s d b64 cid img Himg Hcid Hnew Hdec). simpl.
  eexists. split; [reflexivity |]. simpl. rewrite Hdist. split; reflexivity.
Qed.

End HandlerFacts.

(** ** The upload endpoint of api.py *)

(** [request.files["file"]] (its [filename] and its stream) and
    [request.form] of a multipart upload. *)
Record Upload : Type := {
  file : option (string * string);
  form_hash_type : option string;
  form_top_n : option string
}.

Section UploadEndpoint.

Context {L : ImageHashLib}.

(** Python's [int] on a string: the number, or the [ValueError] of a string
    that is not one. *)
Variable int_of_str : string -> result Z.

Definition match_card_file (upload : Upload) : M Store (Response MatchBody) :=
  handler
    (match file upload with
     | None => ret (Failure 400 "No file uploaded" None)
     | Some (filename, stream) =>
         if (filename =? "")%string then ret (Failure 400 "Empty filename" None)
         else
           lift (Image_identify stream) ;;;
           let hash_type := get_default (form_hash_type upload) "perceptual" in
           top_n <- lift (match form_top_n upload with
                          | Some text => int_of_str text
                          | None => Ok 5
                          end) ;;
           img <- lift (Image_open stream) ;;
           matches <- on_card_hashes (get_most_similar img hash_type top_n) ;;
           ret (Success {| matches := matches; body_hash_type := hash_type |})
     end)%py.


(** X13: an upload without a file or with an empty file name is refused
    with status 400; a [top_n] that is not a number is answered with status
    500, after the image has been opened; the store is unchanged in all
    three cases. *)
Theorem match_card_file_rejections
    (s : Store) (upload : Upload) :
  (file upload = None ->
   match_card_file upload s = (Ok (Failure 400 "No file uploaded" None), s)) /\
  (forall stream, file upload = Some ("", stream) ->
   match_card_file upload s = (Ok (Failure 400 "Empty filename" None), s)) /\
  (forall filename stream img text e,
     file upload = Some (filename, stream) ->
     filename <> "" ->
     Image_open stream = Ok img ->
     form_top_n upload = Some text ->
     int_of_str text = Raise e ->
     is_Exception e = true ->
     match_card_file upload s = (Ok (Failure 500 (str_exn e) None), s)).
Proof.
  unfold match_card_file, handler, try_except, bind, lift, ret.
  split; [| split].
  - intros ->. reflexivity.
  - intros stream ->. reflexivity.
  - intros filename stream img text e -> Hname Himg -> Htext He.
    destruct (String.eqb_spec filename ""); [contradiction |].
    destruct (Image_identify stream) as [[] | e'] eqn:Hid.
    + rewrite Htext, He. reflexivity.
    + rewrite (Image_identify_open _ _ Hid) in Himg. discriminate Himg.
Qed.

End UploadEndpoint.

(** ** compute_hash.py and the hashing of the builder *)

Section HashingFacts.

Context {L : ImageHashLib}.

(** X14: [compute_card_hash] returns four hexadecimal strings of 64, 64, 64
    and 28 digits when the file opens and its pixel data loads, [None] when
    opening or loading it raises an [Exception] (a file that is no image, a
    truncated one), and lets only [KeyboardInterrupt] through. *)
Theorem compute_card_hash_outcomes (image_path : string) :
  match Image_open_path image_path with
  | Ok img =>
      exists hashes,
        compute_card_hash image_path = Ok (Some hashes) /\
        hashes = str_hashes (compute_card_hash_vectors img) /\
        String.length (perceptual_str hashes) = 64%nat /\
        String.length (difference_str hashes) = 64%nat /\
        String.length (wavelet_str hashes) = 64%nat /\
        String.length (color_str hashes) = 28%nat
  | Raise KeyboardInterrupt => compute_card_hash image_path = Raise KeyboardInterrupt
  | Raise _ => compute_card_hash image_path = Ok None
  end.
Proof.
  unfold compute_card_hash.
  destruct (Image_open_path image_path) as [img | e]; [| destruct e; reflexivity].
  eexists. split; [reflexivity |]. split; [reflexivity |]. simpl.
  repeat split.
  - apply (ImageHash_str_length _ 256 0); [| reflexivity | reflexivity].
    rewrite phash_shape by lia. reflexivity.
  - apply (ImageHash_str_length _ 256 0); [| reflexivity | reflexivity].
    rewrite dhash_shape by lia. reflexivity.
  - apply (ImageHash_str_length _ 256 0); [| reflexivity | reflexivity].
    change 16%nat with (2 ^ 4)%nat. rewrite whash_shape. reflexivity.
  - apply (ImageHash_str_length _ 112 0); [| reflexivity | reflexivity].
    rewrite colorhash_shape. reflexivity.
Qed.

(** X15: [compute_hashes_for_image] returns either hashes and no error, or
    no hashes and an error message; it returns hashes exactly when the
    download has status 200 and its content opens as an image whose pixel
    data loads (content that opens and then fails to load gives an error
    message), and then they are the hashes [get_hashes] gives that image;
    only [KeyboardInterrupt] leaves it as an exception. *)
Theorem compute_hashes_for_image_outcomes (tcgdex : Tcgdex) (image_url : string) :
  match compute_hashes_for_image tcgdex image_url with
  | Ok (Some hashes, None) =>
      exists content img,
        get_image tcgdex image_url = Ok (200, content) /\
        Image_open content = Ok img /\
        hashes = get_hashes img
  | Ok (None, Some error) =>
      forall content img,
        get_image tcgdex image_url = Ok (200, content) -> Image_open content <> Ok img
  | Ok _ => False
  | Raise e => e = KeyboardInterrupt
  end.
Proof.
  unfold compute_hashes_for_image.
  assert (Herr : forall e,
            match hashing_error e with
            | Ok (None, Some _) => True
            | Ok _ => False
            | Raise e' => e = KeyboardInterrupt /\ e' = KeyboardInterrupt
            end).
  { intros e. destruct e; simpl; auto. }
  destruct (get_image tcgdex image_url) as [[status_code content] | e] eqn:Hget.
  - destruct (Z.eqb_spec status_code 200) as [-> | Hne]; simpl.
    + destruct (Image_open content) as [img | e] eqn:Hopen.
      * exists content, img. auto.
      * specialize (Herr e). destruct (hashing_error e) as [[[h |] [msg |]] | e'];
          try contradiction; [| tauto].
        intros content' img' Heq. injection Heq as <-. congruence.
    + intros content' img' Heq. injection Heq as Hs _. contradiction.
  - specialize (Herr e). destruct (hashing_error e) as [[[h |] [msg |]] | e'];
      try contradiction; [| tauto].
    intros content img Heq. discriminate Heq.
Qed.

End HashingFacts.

(** ** The builder: what every run keeps *)

Lemma concat_nil (df : DataFrame) : concat df [] = df.
Proof.
  destruct df as [rs [d |]]; unfold concat; simpl; rewrite ?app_nil_r; reflexivity.
Qed.

Lemma concat_concat (df : DataFrame) (a b : list CardRow) :
  concat (concat df a) b = concat df (a ++ b).
Proof.
  destruct df as [rs [d |]]; unfold concat; simpl; rewrite <- ?app_assoc; [| reflexivity].
  rewrite length_app, repeat_app. reflexivity.
Qed.

(** The frame that a run starts from. *)
Definition loaded_frame (files : Files) : DataFrame :=
  match card_hashes_32b_pickle files with
  | Some df => df
  | None => empty_frame
  end.

(** The files after lines 189-210: the last batch, then the CSV copy. *)
Definition finish (st : Locals) (files : Files) : Files :=
  let files2 :=
    match new_hashes st with
    | [] => files
    | _ => {| card_hashes_32b_pickle := Some (concat (existing_df st) (new_hashes st));
              card_hashes_32b_csv := card_hashes_32b_csv files |}
    end in
  match card_hashes_32b_pickle files2 with
  | Some df => {| card_hashes_32b_pickle := card_hashes_32b_pickle files2;
                  card_hashes_32b_csv := Some (to_csv df) |}
  | None => files2
  end.

Definition stats_of (st : Locals) : Stats :=
  {| st_processed := total_processed st;
     st_added := total_added st;
     st_skipped := total_skipped st;
     st_database_total := (length (rows (existing_df st)) + length (new_hashes st))%nat |}.

Definition initial_locals (files : Files) : Locals :=
  {| existing_df := loaded_frame files;
     existing_ids := map id (rows (loaded_frame files));
     new_hashes := [];
     total_processed := 0;
     total_added := 0;
     total_skipped := 0 |}.

(** The batch test of lines 168-180 on the state [st]. *)
Definition after_batch_test (batch_size : Z) (st : Locals) : M Files Locals :=
  if batch_size <=? Z.of_nat (length (new_hashes st)) then save_batch st else ret st.

Section BuilderInvariant.

Context {L : ImageHashLib}.
Variable tcgdex : Tcgdex.
Variable batch_size : Z.
Variable limit : option Z.

(** The ids of the cards listed in [sets], in the order of the run. *)
Definition listed_ids (sets : list SetInfo) : list string :=
  flat_map
    (fun s =>
       match get_cards_from_set tcgdex (set_id s) with
       | Ok cards => map c_id cards
       | Raise _ => []
       end)
    sets.

(** An invariant of the two loops, indexed by the ids still to come. *)
Variable Inv : list string -> Locals -> Files -> Prop.

Hypothesis Inv_drop : forall i rem st f, Inv (i :: rem) st f -> Inv rem st f.
Hypothesis Inv_skip : forall i rem st f,
  Inv (i :: rem) st f ->
  existsb (String.eqb i) (existing_ids st) = true ->
  Inv rem (count_skipped (count_processed st)) f.
Hypothesis Inv_pass : forall i rem st f,
  Inv (i :: rem) st f ->
  existsb (String.eqb i) (existing_ids st) = false ->
  Inv rem (count_processed st) f.
Hypothesis Inv_batch : forall i rem st f (fetched : option Image) st2 f2,
  Inv (i :: rem) st f ->
  existsb (String.eqb i) (existing_ids st) = false ->
  after_batch_test batch_size
    match fetched with
    | Some img => append_hashes i (get_hashes img) (count_processed st)
    | None => count_processed st
    end f = (Ok st2, f2) ->
  Inv rem st2 f2.

Lemma Inv_drop_app (l rem : list string) (st : Locals) (f : Files) :
  Inv (l ++ rem) st f -> Inv rem st f.
Proof. induction l as [| i l IH]; simpl; [auto | intros H; apply IH, (Inv_drop i), H]. Qed.

Lemma after_batch_test_returns (st : Locals) (f : Files) :
  exists st2 f2, after_batch_test batch_size st f = (Ok st2, f2).
Proof.
  unfold after_batch_test. destruct (batch_size <=? _); eexists; eexists; reflexivity.
Qed.

Lemma cards_loop_inv (cards : list Card) :
  forall (future : list string) (st : Locals) (f : Files),
    Inv (map c_id cards ++ future) st f ->
    match cards_loop tcgdex batch_size limit cards st f with
    | (Ok st', f') => Inv future st' f'
    | (Raise _, f') => exists rem st', Inv rem st' f'
    end.
Proof.
  induction cards as [| card rest IH]; intros future st f H; [exact H |].
  rewrite cards_loop_cons. simpl map in H. simpl app in H.
  destruct (limit_reached limit (total_processed st)).
  { unfold ret. apply (Inv_drop_app (map c_id rest)), (Inv_drop (c_id card)), H. }
  change (existing_ids (count_processed st)) with (existing_ids st).
  destruct (existsb (String.eqb (c_id card)) (existing_ids st)) eqn:Hin.
  { apply IH, (Inv_skip _ _ _ _ H Hin). }
  destruct (card_image_url card) as [image_url |]; [| apply IH, (Inv_pass _ _ _ _ H Hin)].
  unfold bind, lift.
  destruct (compute_hashes_for_image tcgdex image_url) as [[hashes error] | e] eqn:Hfetch;
    [| exists (c_id card :: map c_id rest ++ future), st; exact H].
  change (fst (hashes, error)) with hashes.
  assert (Hstep : exists fetched : option Image,
            match hashes with
            | Some h => append_hashes (c_id card) h (count_processed st)
            | None => count_processed st
            end
            = match fetched with
              | Some img => append_hashes (c_id card) (get_hashes img) (count_processed st)
              | None => count_processed st
              end).
  { destruct hashes as [h |]; [| exists None; reflexivity].
    apply compute_hashes_for_image_is_get_hashes in Hfetch. destruct Hfetch as [img ->].
    exists (Some img). reflexivity. }
  destruct Hstep as [fetched Hstep]. rewrite Hstep.
  fold (after_batch_test batch_size
          match fetched with
          | Some img => append_hashes (c_id card) (get_hashes img) (count_processed st)
          | None => count_processed st
          end).
  destruct (after_batch_test_returns
              match fetched with
              | Some img => append_hashes (c_id card) (get_hashes img) (count_processed st)
              | None => count_processed st
              end f) as [st2 [f2 Hb]].
  rewrite Hb. apply IH. eapply Inv_batch; eassumption.
Qed.

Lemma sets_loop_inv (sets : list SetInfo) :
  forall (st : Locals) (f : Files),
    Inv (listed_ids sets) st f ->
    match sets_loop tcgdex batch_size limit sets st f with
    | (Ok st', f') => Inv [] st' f'
    | (Raise _, f') => exists rem st', Inv rem st' f'
    end.
Proof.
  induction sets as [| s rest IH]; intros st f H; [exact H |].
  simpl sets_loop. unfold bind, lift. simpl listed_ids in H.
  destruct (get_cards_from_set tcgdex (set_id s)) as [cards | e];
    [| exists (listed_ids rest), st; exact H].
  pose proof (cards_loop_inv cards (listed_ids rest) st f H) as Hc.
  destruct (cards_loop tcgdex batch_size limit cards st f) as [[st1 | e] f1]; [| exact Hc].
  destruct (limit_reached limit (total_processed st1)); [| apply IH, Hc].
  unfold ret. rewrite <- (app_nil_r (listed_ids rest)) in Hc.
  apply (Inv_drop_app _ _ _ _ Hc).
Qed.

Lemma update_hash_database_inv (start_from : Z) (files : Files) :
  Inv (listed_ids (sets_to_process tcgdex start_from)) (initial_locals files) files ->
  match update_hash_database tcgdex batch_size start_from limit files with
  | (Ok None, files') => files' = files
  | (Ok (Some stats), files') =>
      exists st f1, Inv [] st f1 /\ stats = stats_of st /\ files' = finish st f1
  | (Raise _, files') => exists rem st, Inv rem st files'
  end.
Proof.
  intros H. unfold sets_to_process in H.
  unfold update_hash_database, bind, get, lift.
  destruct (get_all_sets tcgdex) as [all_sets | e]; [| eexists; eexists; exact H].
  destruct all_sets as [| s all_sets]; [exact eq_refl |].
  pose proof (sets_loop_inv _ _ _ H) as H'. unfold initial_locals, loaded_frame in H'.
  match goal with
  | |- context [sets_loop tcgdex batch_size limit ?sets ?st0 files] =>
      destruct (sets_loop tcgdex batch_size limit sets st0 files) as [[st | e] f1]
  end; [| exact H'].
  unfold write_pickle, write_csv, ret.
  destruct (new_hashes st) as [| row batch] eqn:Hnew; cbn;
    destruct (card_hashes_32b_pickle f1) as [df |] eqn:Hpk; cbn;
    exists st, f1; (split; [exact H' |]);
    unfold finish, stats_of; rewrite Hnew; cbn; rewrite ?Hpk; split; reflexivity.
Qed.

End BuilderInvariant.

Lemma finish_pickle (st : Locals) (files : Files) :
  card_hashes_32b_pickle (finish st files)
  = match new_hashes st with
    | [] => card_hashes_32b_pickle files
    | _ => Some (concat (existing_df st) (new_hashes st))
    end.
Proof.
  unfold finish. destruct files as [[df |] csv]; destruct (new_hashes st); reflexivity.
Qed.

Lemma finish_csv (st : Locals) (files : Files) :
  card_hashes_32b_csv (finish st files)
  = match card_hashes_32b_pickle (finish st files) with
    | Some df => Some (to_csv df)
    | None => card_hashes_32b_csv files
    end.
Proof.
  unfold finish. destruct files as [[df |] csv]; destruct (new_hashes st); reflexivity.
Qed.

(** The records of the loaded catalog are kept, what is added is well
    shaped and counted, and the pickle file is the loaded one or the current
    frame. *)
Definition keeps_catalog (files0 : Files) (rem : list string) (st : Locals) (f : Files)
  : Prop :=
  exists added : list CardRow,
    existing_df st = concat (loaded_frame files0) added /\
    Forall (fun r : CardRow => well_shaped_hashes r) added /\
    Forall (fun r : CardRow => well_shaped_hashes r) (new_hashes st) /\
    total_added st = Z.of_nat (length added + length (new_hashes st)) /\
    ((card_hashes_32b_pickle f = card_hashes_32b_pickle files0 /\ added = []) \/
     card_hashes_32b_pickle f = Some (existing_df st)) /\
    card_hashes_32b_csv f = card_hashes_32b_csv files0.

(** The ids of the frame and of the pending batch are pairwise distinct, and
    so are those of any pickle file written. *)
Definition keeps_ids_distinct (rem : list string) (st : Locals) (f : Files) : Prop :=
  NoDup (map id (rows (existing_df st)) ++ map id (new_hashes st)) /\
  incl (map id (rows (existing_df st))) (existing_ids st) /\
  (forall i, In i rem -> ~ In i (map id (new_hashes st))) /\
  NoDup rem /\
  (forall df, card_hashes_32b_pickle f = Some df -> NoDup (map id (rows df))).


Section BuilderFacts.

Context {L : ImageHashLib}.

Lemma keeps_catalog_batch (batch_size : Z) (files0 : Files) :
  forall i rem st f (fetched : option Image) st2 f2,
    keeps_catalog files0 (i :: rem) st f ->
    existsb (String.eqb i) (existing_ids st) = false ->
    after_batch_test batch_size
      match fetched with
      | Some img => append_hashes i (get_hashes img) (count_processed st)
      | None => count_processed st
      end f = (Ok st2, f2) ->
    keeps_catalog files0 rem st2 f2.
Proof.
  intros i rem st f fetched st2 f2 (added & He & Hws & Hwn & Hta & Hpk & Hcsv) _ Hb.
  unfold after_batch_test, save_batch, write_pickle, bind, ret in Hb.
  destruct fetched as [img |]; destruct (batch_size <=? _);
    cbn in Hb; injection Hb as <- <-; unfold keeps_catalog; cbn.
  - exists (added ++ new_hashes st ++ [{| id := i; row_hashes := get_hashes img |}]).
    rewrite He, concat_concat.
    repeat split; auto.
    + repeat (apply Forall_app; split); auto.
      constructor; [apply get_hashes_well_shaped | constructor].
    + rewrite !length_app. simpl. lia.
  - exists added. repeat split; auto.
    + apply Forall_app. split; [auto |].
      constructor; [apply get_hashes_well_shaped | constructor].
    + rewrite length_app. simpl. lia.
  - exists (added ++ new_hashes st). rewrite He, concat_concat.
    repeat split; auto.
    + apply Forall_app. auto.
    + rewrite !length_app. simpl. lia.
  - exists added. repeat split; auto.
Qed.

Lemma update_hash_database_keeps_catalog
    (tcgdex : Tcgdex) (batch_size start_from : Z) (limit : option Z) (files : Files) :
  match update_hash_database tcgdex batch_size start_from limit files with
  | (Ok None, files') => files' = files
  | (Ok (Some stats), files') =>
      exists st f1, keeps_catalog files [] st f1 /\ stats = stats_of st /\
                    files' = finish st f1
  | (Raise _, files') => exists rem st, keeps_catalog files rem st files'
  end.
Proof.
  apply (update_hash_database_inv tcgdex batch_size limit (keeps_catalog files)).
  - intros i rem st f H. exact H.
  - intros i rem st f H _. exact H.
  - intros i rem st f H _. exact H.
  - apply keeps_catalog_batch.
  - exists []. simpl. rewrite concat_nil. repeat split; auto.
Qed.

(** X16: as long as every write of the pickle file that starts runs to its
    end, a run that finishes, or that is ended by an exception of one of the
    network calls (a failed listing, an interrupt while the script waits for
    an image), leaves the pickle file either untouched or as the loaded
    catalog with records appended at its end, each with the configured hash
    sizes: no existing record is changed, dropped or moved. *)
Theorem builder_only_appends
    (tcgdex : Tcgdex) (batch_size start_from : Z) (limit : option Z) (files : Files) :
  let files' := snd (update_hash_database tcgdex batch_size start_from limit files) in
  card_hashes_32b_pickle files' = card_hashes_32b_pickle files \/
  exists added : list CardRow,
    card_hashes_32b_pickle files' = Some (concat (loaded_frame files) added) /\
    Forall (fun r : CardRow => well_shaped_hashes r) added.
Proof.
  pose proof (update_hash_database_keeps_catalog tcgdex batch_size start_from limit files)
    as H.
  destruct (update_hash_database tcgdex batch_size start_from limit files)
    as [[[stats |] | e] files']; simpl.
  - destruct H as (st & f1 & (added & He & Hws & Hwn & Hta & Hpk & Hcsv) & _ & ->).
    rewrite finish_pickle. destruct (new_hashes st) as [| row batch] eqn:Hnew.
    + destruct Hpk as [[Hpk _] | Hpk]; [left; exact Hpk |].
      right. exists added. rewrite Hpk, He. auto.
    + right. exists (added ++ row :: batch). rewrite He, concat_concat.
      split; [reflexivity | apply Forall_app; auto].
  - left. rewrite H. reflexivity.
  - destruct H as (rem & st & (added & He & Hws & Hwn & Hta & Hpk & Hcsv)).
    destruct Hpk as [[Hpk _] | Hpk]; [left; exact Hpk |].
    right. exists added. rewrite Hpk, He. auto.
Qed.

(** X17: when a run finishes, the total it prints is the number of records
    in the catalog file, which is the number loaded plus the number added,
    and the CSV file is the copy of the catalog file. *)
Theorem finished_run_accounting
    (tcgdex : Tcgdex) (batch_size start_from : Z) (limit : option Z)
    (files files' : Files) (stats : Stats) :
  update_hash_database tcgdex batch_size start_from limit files = (Ok (Some stats), files') ->
  length (rows (loaded_frame files')) = st_database_total stats /\
  Z.of_nat (st_database_total stats)
    = Z.of_nat (length (rows (loaded_frame files))) + st_added stats /\
  card_hashes_32b_csv files'
    = match card_hashes_32b_pickle files' with
      | Some df => Some (to_csv df)
      | None => card_hashes_32b_csv files
      end.
Proof.
  intros Hrun.
  pose proof (update_hash_database_keeps_catalog tcgdex batch_size start_from limit files)
    as H.
  rewrite Hrun in H.
  destruct H as (st & f1 & (added & He & Hws & Hwn & Hta & Hpk & Hcsv) & -> & ->).
  rewrite finish_csv, Hcsv. split; [| split; [| reflexivity]].
  - unfold loaded_frame at 1. rewrite finish_pickle. unfold stats_of; simpl.
    destruct (new_hashes st) as [| row batch] eqn:Hnew.
    + destruct Hpk as [[Hpk ->] | Hpk].
      * rewrite Hpk. fold (loaded_frame files). rewrite He, concat_nil. simpl. lia.
      * rewrite Hpk. simpl. lia.
    + simpl. rewrite length_app. reflexivity.
  - unfold stats_of; simpl. rewrite Hta, He. simpl. rewrite length_app. lia.
Qed.

Lemma keeps_ids_distinct_batch (batch_size : Z) :
  forall i rem st f (fetched : option Image) st2 f2,
    keeps_ids_distinct (i :: rem) st f ->
    existsb (String.eqb i) (existing_ids st) = false ->
    after_batch_test batch_size
      match fetched with
      | Some img => append_hashes i (get_hashes img) (count_processed st)
      | None => count_processed st
      end f = (Ok st2, f2) ->
    keeps_ids_distinct rem st2 f2.
Proof.
  intros i rem st f fetched st2 f2 (Hnd & Hincl & Hrem & Hndrem & Hpk) Hnew Hb.
  assert (Hi_ids : ~ In i (existing_ids st)).
  { intros Hin. apply existsb_eqb_In in Hin. congruence. }
  assert (Hi_rows : ~ In i (map id (rows (existing_df st)))) by (intros Hin; apply Hi_ids, Hincl, Hin).
  assert (Hi_new : ~ In i (map id (new_hashes st))) by (apply Hrem; left; reflexivity).
  inversion Hndrem as [| ? ? Hi_rem Hnd_rem]; subst.
  assert (Hrem' : forall j, In j rem -> ~ In j (map id (new_hashes st))).
  { intros j Hj. apply Hrem. right. exact Hj. }
  assert (Hnd_i : NoDup (map id (rows (existing_df st)) ++ map id (new_hashes st) ++ [i])).
  { rewrite app_assoc. apply NoDup_app; [exact Hnd | repeat constructor; auto |].
    intros a Ha [<- | []]. apply in_app_or in Ha. tauto. }
  unfold after_batch_test, save_batch, write_pickle, bind, ret in Hb.
  destruct fetched as [img |]; destruct (batch_size <=? _);
    cbn in Hb; injection Hb as <- <-; unfold keeps_ids_distinct; cbn;
    rewrite ?map_app, ?app_nil_r; cbn.
  - split; [exact Hnd_i |].
    split; [| split; [tauto | split; [exact Hnd_rem |]]].
    + intros a Ha. apply in_app_or in Ha. apply in_or_app.
      destruct Ha as [Ha | Ha]; [left; apply Hincl, Ha | right; exact Ha].
    + intros df Hdf. injection Hdf as <-. cbn. rewrite ?map_app. cbn. exact Hnd_i.
  - split; [exact Hnd_i |]. split; [exact Hincl |]. split; [| split; [exact Hnd_rem | exact Hpk]].
    intros j Hj Hin. apply in_app_or in Hin. destruct Hin as [Hin | [<- | []]].
    + exact (Hrem' j Hj Hin).
    + contradiction.
  - split; [exact Hnd |].
    split; [| split; [tauto | split; [exact Hnd_rem |]]].
    + intros a Ha. apply in_app_or in Ha. apply in_or_app.
      destruct Ha as [Ha | Ha]; [left; apply Hincl, Ha | right; exact Ha].
    + intros df Hdf. injection Hdf as <-. cbn. rewrite ?map_app. exact Hnd.
  - split; [exact Hnd |]. split; [exact Hincl |]. split; [exact Hrem' |].
    split; [exact Hnd_rem | exact Hpk].
Qed.

(** X18: when the ids of the loaded catalog are pairwise distinct and no
    card id is listed twice in the sets that the run visits, every catalog
    file the run writes, however it ends, has pairwise distinct ids. *)
Theorem builder_keeps_ids_distinct
    (tcgdex : Tcgdex) (batch_size start_from : Z) (limit : option Z) (files : Files) :
  NoDup (map id (rows (loaded_frame files))) ->
  NoDup (listed_ids tcgdex (sets_to_process tcgdex start_from)) ->
  forall df,
    card_hashes_32b_pickle
      (snd (update_hash_database tcgdex batch_size start_from limit files)) = Some df ->
    NoDup (map id (rows df)).
Proof.
  intros Hcat Hlisted.
  assert (Hinit : forall df, card_hashes_32b_pickle files = Some df -> NoDup (map id (rows df))).
  { intros df Hdf. unfold loaded_frame in Hcat. rewrite Hdf in Hcat. exact Hcat. }
  pose proof (update_hash_database_inv tcgdex batch_size limit keeps_ids_distinct) as H.
  specialize (H ltac:(intros i rem st f (H1 & H2 & H3 & H4 & H5);
                      inversion H4; subst; repeat split; auto;
                      intros j Hj; apply H3; right; exact Hj)).
  specialize (H ltac:(intros i rem st f (H1 & H2 & H3 & H4 & H5) _;
                      inversion H4; subst; repeat split; auto;
                      intros j Hj; apply H3; right; exact Hj)).
  specialize (H ltac:(intros i rem st f (H1 & H2 & H3 & H4 & H5) _;
                      inversion H4; subst; repeat split; auto;
                      intros j Hj; apply H3; right; exact Hj)).
  specialize (H (keeps_ids_distinct_batch batch_size) start_from files).
  specialize (H ltac:(unfold keeps_ids_distinct, initial_locals; cbn;
                      rewrite app_nil_r; repeat split; auto using incl_refl)).
  destruct (update_hash_database tcgdex batch_size start_from limit files)
    as [[[stats |] | e] files']; simpl.
  - destruct H as (st & f1 & (H1 & H2 & H3 & H4 & H5) & _ & ->).
    intros df. rewrite finish_pickle.
    destruct (new_hashes st) as [| row batch] eqn:Hnew; [apply H5 |].
    intros Hdf. injection Hdf as <-. cbn. rewrite map_app. exact H1.
  - rewrite H. exact Hinit.
  - destruct H as (rem & st & (H1 & H2 & H3 & H4 & H5)). exact H5.
Qed.


(** X20: with a batch size of at least 1, the batch that is pending when
    the loop over the sets ends holds fewer records than the batch size. *)
Theorem pending_batch_stays_below_batch_size
    (tcgdex : Tcgdex) (batch_size : Z) (limit : option Z) (sets : list SetInfo)
    (st st' : Locals) (f f' : Files) :
  1 <= batch_size ->
  Z.of_nat (length (new_hashes st)) < batch_size ->
  sets_loop tcgdex batch_size limit sets st f = (Ok st', f') ->
  Z.of_nat (length (new_hashes st')) < batch_size.
Proof.
  intros Hbs Hst Hrun.
  pose proof (sets_loop_inv tcgdex batch_size limit
                (fun _ st _ => Z.of_nat (length (new_hashes st)) < batch_size)) as H.
  specialize (H ltac:(auto) ltac:(auto) ltac:(auto)).
  assert (Hbatch : forall (i : string) (rem : list string) (st0 : Locals) (f0 : Files)
                          (fetched : option Image) (st2 : Locals) (f2 : Files),
             Z.of_nat (length (new_hashes st0)) < batch_size ->
             existsb (String.eqb i) (existing_ids st0) = false ->
             after_batch_test batch_size
               match fetched with
               | Some img => append_hashes i (get_hashes img) (count_processed st0)
               | None => count_processed st0
               end f0 = (Ok st2, f2) ->
             Z.of_nat (length (new_hashes st2)) < batch_size).
  { intros i rem st0 f0 fetched st2 f2 Hlt _ Hb.
    unfold after_batch_test, save_batch, write_pickle, bind, ret in Hb.
    destruct fetched as [img |];
      match type of Hb with
      | context [batch_size <=? ?n] => destruct (Z.leb_spec batch_size n) as [Hle | Hgt]
      end; cbn in Hb; injection Hb as <- <-; cbn in *; lia. }
  specialize (H Hbatch sets st f Hst). rewrite Hrun in H. exact H.
Qed.

End BuilderFacts.

(** ** A run without sets *)

Section NoSets.

Context {L : ImageHashLib}.

(** X22: when the list of sets cannot be had (a status other than 200) or is
    empty, the script ends without statistics and writes no file, not even
    the CSV copy; when the request raises an [Exception], the script reports
    the crash and writes nothing either. *)
Theorem main_without_sets_writes_nothing
    (tcgdex : Tcgdex) (limit : option Z) (start_from : Z) (files : Files) :
  match get_sets tcgdex with
  | Ok (status, sets) =>
      status <> 200 \/ sets = [] ->
      main tcgdex limit start_from files = (Finished None, files)
  | Raise KeyboardInterrupt =>
      main tcgdex limit start_from files = (InterruptedByUser, files)
  | Raise e => main tcgdex limit start_from files = (Crashed e, files)
  end.
Proof.
  unfold main, update_hash_database, get_all_sets, bind, get, lift, ret.
  destruct (get_sets tcgdex) as [[status sets] | e]; simpl.
  - intros [Hstatus | ->].
    + destruct (Z.eqb_spec status 200); [contradiction | reflexivity].
    + destruct (status =? 200); reflexivity.
  - destruct e; reflexivity.
Qed.

End NoSets.

(** ** The matches that recognize_card reports *)

Section RecognizeFacts.

Context {L : ImageHashLib}.



End RecognizeFacts.

(** ** Runs on the sample data *)

(** A catalog with a record hashed by the standalone tool, at 16 x 16 bits. *)
Definition mixed_catalog : DataFrame :=
  {| rows := [bitmap_row "base1-4" "1100";
              {| id := "old-1";
                 row_hashes := compute_card_hash_vectors (L := bitmap_lib)
                                 (bitmap_of_string "1100") |}];
     distance := None |}.

Definition add_request (img card : string) : Json :=
  {| image := Some img; hash_type := None; top_n := None; threshold := None;
     card_id := Some card |}.

(** The frame of [sample_store] after a match against ["1100"]. *)
Definition matched_store : Store :=
  {| card_hashes := {| rows := rows sample_catalog;
                       distance := Some [Some 0; Some 1; Some 1; Some 1] |};
     pickle_file := Some sample_catalog |}.




Lemma sample_catalog_well_shaped : well_shaped sample_catalog.
Proof. unfold well_shaped, well_shaped_hashes. simpl. repeat constructor. Qed.

Lemma get_most_similar_results_are_catalog_records_witness :
  exists results,
    fst (get_most_similar (L := bitmap_lib) (bitmap_of_string "1100") "difference" 3
           sample_catalog) = Ok results /\
    Forall (fun m =>
              exists r : CardRow,
                In r (rows sample_catalog) /\ id r = m_id m /\
                m_distance m = count_nonzero_ne (hash_of_type "difference" r)
                                 (hash_of_type "difference"
                                    (get_hashes (L := bitmap_lib) (bitmap_of_string "1100"))) /\
                0 <= m_distance m <= 1024)
           results.
Proof.
  apply (get_most_similar_results_are_catalog_records (L := bitmap_lib)).
  - simpl. auto.
  - unfold well_shaped, well_shaped_hashes. simpl. repeat constructor.
Defined.

Lemma get_most_similar_best_is_nearest_witness :
  exists best rest,
    fst (get_most_similar (L := bitmap_lib) (bitmap_of_string "1000") "perceptual" 2
           sample_catalog) = Ok (best :: rest) /\
    Forall (fun d => m_distance best <= d)
           (distances (L := bitmap_lib) sample_catalog (bitmap_of_string "1000") "perceptual").
Proof.
  apply (get_most_similar_best_is_nearest (L := bitmap_lib)).
  - simpl. auto.
  - unfold well_shaped, well_shaped_hashes. simpl. repeat constructor.
  - discriminate.
  - lia.
Defined.

Lemma get_most_similar_rejects_other_sizes_witness :
  get_most_similar (L := bitmap_lib) (bitmap_of_string "1100") "perceptual" 5 mixed_catalog
  = (Raise (TypeError
       "Cannot broadcast np.ndarray with operand of type <class 'imagehash.ImageHash'>"),
     mixed_catalog).
Proof.
  apply (get_most_similar_rejects_other_sizes (L := bitmap_lib)).
  - simpl. auto.
  - apply Exists_cons_tl, Exists_cons_hd.
    intros H. apply (f_equal (Nat.eqb 256)) in H. vm_compute in H. discriminate H.
Defined.

Lemma add_card_twice_conflicts_witness :
  let s1 := snd (add_card (L := bitmap_lib) (Some (add_request "0011" "new-1")) sample_store) in
  add_card (L := bitmap_lib) (Some (add_request "1111" "new-1")) s1
    = (Ok (Failure 400 ("Card " ++ "new-1" ++ " already exists in database")%string None),
       s1) /\
  count_occ string_dec (map id (rows (card_hashes s1))) "new-1" = 1%nat /\
  health s1 = S (health sample_store) /\
  pickle_file s1 = Some (card_hashes s1).
Proof.
  apply (add_card_twice_conflicts (L := bitmap_lib) sample_store
           (add_request "0011" "new-1") (add_request "1111" "new-1")
           "0011" "1111" "new-1" (bitmap_of_string "0011")).
  - reflexivity.
  - reflexivity.
  - simpl. intros [H | [H | [H | [H | []]]]]; discriminate H.
  - reflexivity.
  - reflexivity.
  - reflexivity.
Defined.

Lemma add_card_then_recognize_witness :
  let s1 := snd (add_card (L := bitmap_lib) (Some (add_request "0011" "new-1")) sample_store) in
  exists body,
    fst (recognize_card (L := bitmap_lib) (Some (request "0011" None None)) s1)
      = Ok (Success body) /\
    res_distance body = 0 /\
    res_confidence body = Int 100 /\
    exists r : CardRow,
      In r (rows (card_hashes s1)) /\ id r = cardId body /\
      hash_of_type (get_default (hash_type (request "0011" None None)) "perceptual") r
      = hash_of_type (get_default (hash_type (request "0011" None None)) "perceptual")
          (get_hashes (L := bitmap_lib) (bitmap_of_string "0011")).
Proof.
  apply (add_card_then_recognize (L := bitmap_lib) sample_store
           (add_request "0011" "new-1") (request "0011" None None)
           "0011" "new-1" (bitmap_of_string "0011")).
  - unfold well_shaped, well_shaped_hashes. simpl. repeat constructor.
  - reflexivity.
  - reflexivity.
  - simpl. intros [H | [H | [H | [H | []]]]]; discriminate H.
  - reflexivity.
  - reflexivity.
  - simpl. auto.
  - simpl. lia.
Defined.

Lemma recognize_card_within_threshold_witness :
  let q := request "1100" None None in
  let dist := distances (L := bitmap_lib) (card_hashes sample_store) (bitmap_of_string "1100")
                (get_default (hash_type q) "perceptual") in
  let limit := get_default (threshold q) 30 in
  match fst (recognize_card (L := bitmap_lib) (Some q) sample_store) with
  | Ok (Success body) =>
      In (res_distance body) dist /\
      res_distance body <= limit /\
      Forall (fun d => res_distance body <= d) dist /\
      (length (res_matches body) <= 5)%nat /\
      exists rest,
        res_matches body
        = {| m_id := cardId body; m_distance := res_distance body |} :: rest
  | Ok (Failure status _ best_match) =>
      status = 404 /\
      Forall (fun d => limit < d) dist /\
      match best_match with
      | Some best => In (m_distance best) dist /\ Forall (fun d => m_distance best <= d) dist
      | None => rows (card_hashes sample_store) = []
      end
  | Raise _ => False
  end.
Proof.
  apply (recognize_card_within_threshold (L := bitmap_lib) sample_store
           (request "1100" None None) "1100" (bitmap_of_string "1100")).
  - reflexivity.
  - reflexivity.
  - simpl. auto.
  - unfold well_shaped, well_shaped_hashes. simpl. repeat constructor.
Defined.

Lemma recognize_card_confidence_witness :
  match fst (recognize_card (L := bitmap_lib) (Some (request "0" None None))
               distance_30_store) with
  | Ok (Success body) =>
      0 <= res_distance body <= 1024 /\
      res_confidence body = round1 (confidence (res_distance body)) /\
      number_eqb (res_confidence body)
        (float_of_tenths (clamp_formula_tenths (res_distance body))) = true /\
      500 <= clamp_formula_tenths (res_distance body) <= 1000
  | _ => True
  end.
Proof.
  apply (recognize_card_confidence (L := bitmap_lib) distance_30_store
           (request "0" None None) "0" (bitmap_of_string "0")).
  - reflexivity.
  - reflexivity.
  - simpl. auto.
  - unfold well_shaped, well_shaped_hashes. simpl. repeat constructor.
Defined.

Lemma compute_hash_hex_lengths_witness :
  exists body,
    compute_hash (L := bitmap_lib) (Some (add_request "1100" "sv09-142")) sample_store
      = (Ok (Success body), sample_store) /\
    ch_card_id body = card_id (add_request "1100" "sv09-142") /\
    ch_hashes body = str_hashes (get_hashes (L := bitmap_lib) (bitmap_of_string "1100")) /\
    String.length (perceptual_str (ch_hashes body)) = 256%nat /\
    String.length (difference_str (ch_hashes body)) = 256%nat /\
    String.length (wavelet_str (ch_hashes body)) = 256%nat /\
    String.length (color_str (ch_hashes body)) = 11%nat.
Proof.
  apply (compute_hash_hex_lengths (L := bitmap_lib) sample_store
           (add_request "1100" "sv09-142") "1100" (bitmap_of_string "1100")).
  - reflexivity.
  - reflexivity.
Defined.

Lemma add_card_after_match_persists_distance_witness :
  exists df,
    pickle_file (snd (add_card (L := bitmap_lib) (Some (add_request "0011" "new-1"))
                        matched_store)) = Some df /\
    rows df = rows (card_hashes matched_store)
              ++ [{| id := "new-1";
                     row_hashes := get_hashes (L := bitmap_lib) (bitmap_of_string "0011") |}] /\
    distance df = Some ([Some 0; Some 1; Some 1; Some 1] ++ [None]).
Proof.
  apply (add_card_after_match_persists_distance (L := bitmap_lib) matched_store
           (add_request "0011" "new-1") "0011" "new-1" (bitmap_of_string "0011")).
  - reflexivity.
  - reflexivity.
  - simpl. intros [H | [H | [H | [H | []]]]]; discriminate H.
  - reflexivity.
  - reflexivity.
Defined.


Lemma finished_run_accounting_witness :
  let stats := {| st_processed := 3; st_added := 1; st_skipped := 2;
                  st_database_total := 3 |} in
  let files' := snd (update_hash_database (L := bitmap_lib) uninterrupted 50 0 (Some 3)
                       two_cards_present) in
  length (rows (loaded_frame files')) = st_database_total stats /\
  Z.of_nat (st_database_total stats)
    = Z.of_nat (length (rows (loaded_frame two_cards_present))) + st_added stats /\
  card_hashes_32b_csv files'
    = match card_hashes_32b_pickle files' with
      | Some df => Some (to_csv df)
      | None => card_hashes_32b_csv two_cards_present
      end.
Proof.
  apply (finished_run_accounting (L := bitmap_lib) uninterrupted 50 0 (Some 3)
           two_cards_present).
  vm_compute. reflexivity.
Defined.

Lemma builder_keeps_ids_distinct_witness :
  match card_hashes_32b_pickle
          (snd (update_hash_database (L := bitmap_lib) uninterrupted 50 0 None
                  two_cards_present)) with
  | Some df => NoDup (map id (rows df))
  | None => True
  end.
Proof.
  assert (H : forall df,
            card_hashes_32b_pickle
              (snd (update_hash_database (L := bitmap_lib) uninterrupted 50 0 None
                      two_cards_present)) = Some df ->
            NoDup (map id (rows df))).
  { apply (builder_keeps_ids_distinct (L := bitmap_lib) uninterrupted 50 0 None
             two_cards_present).
    - simpl. repeat constructor; simpl; intuition discriminate.
    - vm_compute. repeat constructor; simpl; intuition discriminate. }
  destruct (card_hashes_32b_pickle _) as [df |]; [apply H; reflexivity | exact I].
Defined.


Lemma pending_batch_stays_below_batch_size_witness :
  let run := sets_loop (L := bitmap_lib) uninterrupted 3 None
               [{| set_id := "sv01"; releaseDate := "2023-03-31" |}]
               (initial_locals no_files) no_files in
  let st' := match fst run with Ok st => st | Raise _ => initial_locals no_files end in
  Z.of_nat (length (new_hashes st')) < 3.
Proof.
  apply (pending_batch_stays_below_batch_size (L := bitmap_lib) uninterrupted 3 None
           [{| set_id := "sv01"; releaseDate := "2023-03-31" |}]
           (initial_locals no_files) _ no_files
           (snd (sets_loop (L := bitmap_lib) uninterrupted 3 None
                   [{| set_id := "sv01"; releaseDate := "2023-03-31" |}]
                   (initial_locals no_files) no_files))).
  - lia.
  - simpl. lia.
  - vm_compute. reflexivity.
Defined.

(** ** The confidence over the distances *)

(** A number in tenths, rounded half-even when it is a float. *)
Definition number_tenths (x : number) : option Z :=
  match x with
  | Int z => Some (10 * z)
  | Float f => tenths_of_float f
  end.

Definition confidence_tenths_agree (d : Z) : bool :=
  match number_tenths (round1 (confidence d)) with
  | Some t => t =? clamp_formula_tenths d
  | None => false
  end.

Lemma confidence_tenths_upto_1024 :
  forallb (fun k => confidence_tenths_agree (Z.of_nat k)) (seq 0 1025) = true.
Proof. vm_compute. reflexivity. Qed.

(** X25: over the distances of 1024-bit hashes, a larger distance never
    gets a larger confidence, and every confidence lies between 50.0 and
    100.0. *)
Theorem confidence_never_rises (d1 d2 : Z) :
  0 <= d1 <= d2 ->
  d2 <= 1024 ->
  exists t1 t2,
    number_tenths (round1 (confidence d1)) = Some t1 /\
    number_tenths (round1 (confidence d2)) = Some t2 /\
    t2 <= t1 /\ 500 <= t2 /\ t1 <= 1000.
Proof.
  intros H12 H2.
  assert (Hat : forall d, 0 <= d <= 1024 ->
            number_tenths (round1 (confidence d)) = Some (clamp_formula_tenths d)).
  { intros d Hd. pose proof confidence_tenths_upto_1024 as H.
    rewrite forallb_forall in H. specialize (H (Z.to_nat d)).
    rewrite Z2Nat.id in H by lia. unfold confidence_tenths_agree in H.
    assert (Hin : In (Z.to_nat d) (seq 0 1025)) by (apply in_seq; lia).
    specialize (H Hin).
    destruct (number_tenths (round1 (confidence d))) as [t |]; [| discriminate H].
    apply Z.eqb_eq in H. congruence. }
  exists (clamp_formula_tenths d1), (clamp_formula_tenths d2).
  split; [apply Hat; lia |]. split; [apply Hat; lia |].
  pose proof (clamp_formula_tenths_monotone d1 d2 ltac:(lia)).
  pose proof (clamp_formula_tenths_bounds d1).
  pose proof (clamp_formula_tenths_bounds d2). lia.
Qed.

Lemma confidence_never_rises_witness :
  exists t1 t2,
    number_tenths (round1 (confidence 7)) = Some t1 /\
    number_tenths (round1 (confidence 200)) = Some t2 /\
    t2 <= t1 /\ 500 <= t2 /\ t1 <= 1000.
Proof. apply (confidence_never_rises 7 200); lia. Defined.

(** ** What an interrupted run leaves on disk *)

(** The pending batch is short of the batch size, and what has been written
    is a whole number of batches. *)
Definition whole_batches (batch_size : Z) (files0 : Files) (rem : list string)
    (st : Locals) (f : Files) : Prop :=
  Z.of_nat (length (new_hashes st)) < batch_size /\
  exists (added : list CardRow) (k : Z),
    existing_df st = concat (loaded_frame files0) added /\
    Z.of_nat (length added) = k * batch_size /\
    0 <= k /\
    ((card_hashes_32b_pickle f = card_hashes_32b_pickle files0 /\ k = 0) \/
     (card_hashes_32b_pickle f = Some (existing_df st) /\ 0 < k)).

Section InterruptedRun.

Context {L : ImageHashLib}.

Lemma whole_batches_batch (batch_size : Z) (files0 : Files) :
  forall i rem st f (fetched : option Image) st2 f2,
    whole_batches batch_size files0 (i :: rem) st f ->
    existsb (String.eqb i) (existing_ids st) = false ->
    after_batch_test batch_size
      match fetched with
      | Some img => append_hashes i (get_hashes img) (count_processed st)
      | None => count_processed st
      end f = (Ok st2, f2) ->
    whole_batches batch_size files0 rem st2 f2.
Proof.
  intros i rem st f fetched st2 f2 (Hlt & added & k & He & Hlen & Hk & Hpk) _ Hb.
  unfold after_batch_test, save_batch, write_pickle, bind, ret in Hb.
  destruct fetched as [img |];
    match type of Hb with
    | context [batch_size <=? ?n] => destruct (Z.leb_spec batch_size n) as [Hle | Hgt]
    end; cbn in Hb; injection Hb as <- <-; unfold whole_batches; cbn in *.
  - rewrite length_app in Hle. simpl in Hle. split; [lia |].
    exists (added ++ new_hashes st ++ [{| id := i; row_hashes := get_hashes img |}]), (k + 1).
    rewrite He, concat_concat. split; [reflexivity |].
    split; [rewrite !length_app; simpl; lia |]. split; [lia |]. right. split; [reflexivity | lia].
  - split; [exact Hgt |]. exists added, k. auto.
  - lia.
  - split; [exact Hlt |]. exists added, k. auto.
Qed.

(** X26: with a batch size of at least 1, and as long as every write of the
    pickle file that starts runs to its end, a run ended by an exception of
    one of the network calls (a failed listing, an interrupt while the script
    waits for an image) leaves the catalog file either as it was, or as the
    loaded catalog with a whole number of batches appended. *)
Theorem failed_run_leaves_whole_batches
    (tcgdex : Tcgdex) (batch_size start_from : Z) (limit : option Z) (files : Files) :
  1 <= batch_size ->
  match update_hash_database tcgdex batch_size start_from limit files with
  | (Raise _, files') =>
      card_hashes_32b_pickle files' = card_hashes_32b_pickle files \/
      exists (added : list CardRow) (k : Z),
        card_hashes_32b_pickle files' = Some (concat (loaded_frame files) added) /\
        Z.of_nat (length added) = k * batch_size /\ 0 < k
  | _ => True
  end.
Proof.
  intros Hbs.
  pose proof (update_hash_database_inv tcgdex batch_size limit
                (whole_batches batch_size files)) as H.
  specialize (H ltac:(intros i rem st f H0; exact H0)
                ltac:(intros i rem st f H0 _; exact H0)
                ltac:(intros i rem st f H0 _; exact H0)
                (whole_batches_batch batch_size files) start_from files).
  specialize (H ltac:(unfold whole_batches, initial_locals; cbn; split; [lia |];
                      exists [], 0; rewrite concat_nil; repeat split; auto; lia)).
  destruct (update_hash_database tcgdex batch_size start_from limit files)
    as [[[stats |] | e] files']; try exact I.
  destruct H as (rem & st & (_ & added & k & He & Hlen & Hk & Hpk)).
  destruct Hpk as [[Hpk _] | [Hpk Hpos]]; [left; exact Hpk |].
  right. exists added, k. rewrite Hpk, He. auto.
Qed.

End InterruptedRun.

(** The interrupt arrives while the fourth image is fetched, with batches
    of 2: one batch is on disk. *)
Lemma failed_run_leaves_whole_batches_witness :
  match update_hash_database (L := bitmap_lib) interrupted_at_fourth 2 0 None no_files with
  | (Raise _, files') =>
      card_hashes_32b_pickle files' = card_hashes_32b_pickle no_files \/
      exists (added : list CardRow) (k : Z),
        card_hashes_32b_pickle files' = Some (concat (loaded_frame no_files) added) /\
        Z.of_nat (length added) = k * 2 /\ 0 < k
  | _ => True
  end.
Proof.
  apply (failed_run_leaves_whole_batches (L := bitmap_lib) interrupted_at_fourth 2 0 None
           no_files).
  lia.
Defined.

Example interrupted_run_with_batches_of_2 :
  match update_hash_database (L := bitmap_lib) interrupted_at_fourth 2 0 None no_files with
  | (Raise KeyboardInterrupt, files') =>
      option_map (fun df => map id (rows df)) (card_hashes_32b_pickle files')
      = Some ["sv01-1"; "sv01-2"]
  | _ => False
  end.
Proof. vm_compute. reflexivity. Qed.
